(** * USB Audio-Class descriptor definitions (desc-defs.c)

    A shallow embedding of the descriptor-definition tables of usbutils'
    [desc-defs.c]: the label tables, the special ("snowflake") rendering
    functions, the per-protocol field schemas and the arrays that index
    them by Audio Device Class protocol (0 = UAC1, 1 = UAC2, 2 = UAC3).

    Conventions of the embedding:
    - [unsigned long long] and [unsigned int] values are [N];
    - a [const char * const t[]] table is a [list (option string)], where
      [None] is a [NULL] entry (an explicit terminator or a gap left by
      designated initialisers);
    - an array subscript is [array_get], which reports a subscript past the
      last element instead of reading it;
    - what a function prints with [printf] is the string it returns. *)

From Stdlib Require Import String Ascii List NArith Bool Arith Lia.
From Stdlib Require Import Init.Byte.
Import ListNotations.

Local Open Scope string_scope.
Local Open Scope N_scope.

(** ** Results of C code that subscripts a table *)

(** [Done x]: the code ran and produced [x].  [OutOfBounds len i]: the code
    subscripted a table of [len] elements with [i >= len].  [NullString]:
    the code handed a [NULL] entry to [printf]'s [%s]. *)
Inductive outcome (A : Type) : Type :=
| Done (a : A)
| OutOfBounds (len : nat) (index : N)
| NullString.

Arguments Done {A} a.
Arguments OutOfBounds {A} len index.
Arguments NullString {A}.

Definition obind {A B} (m : outcome A) (k : A -> outcome B) : outcome B :=
  match m with
  | Done a => k a
  | OutOfBounds len i => OutOfBounds len i
  | NullString => NullString
  end.

Notation "x <~ m ;; k" := (obind m (fun x => k))
  (at level 61, m at next level, right associativity).

Definition table := list (option string).

(** ARRAY_LEN(a): number of elements of an array. *)
Definition ARRAY_LEN {A} (a : list A) : N := N.of_nat (length a).

(** [a[i]] for a table of strings that is then printed with [%s]. *)
Definition array_get (a : table) (i : N) : outcome string :=
  match nth_error a (N.to_nat i) with
  | Some (Some s) => Done s
  | Some None => NullString
  | None => OutOfBounds (length a) i
  end.

Definition nl : string := String "010"%char EmptyString.

Fixpoint spaces (n : nat) : string :=
  match n with
  | O => EmptyString
  | S k => String " "%char (spaces k)
  end.

(** ** Label tables *)

Definition uac1_channel_names : table := map Some [
  "Left Front (L)"; "Right Front (R)"; "Center Front (C)";
  "Low Frequency Enhancement (LFE)"; "Left Surround (LS)";
  "Right Surround (RS)"; "Left of Center (LC)"; "Right of Center (RC)";
  "Surround (S)"; "Side Left (SL)"; "Side Right (SR)"; "Top (T)" ].

Definition uac2_channel_names : table := map Some [
  "Front Left (FL)"; "Front Right (FR)"; "Front Center (FC)";
  "Low Frequency Effects (LFE)"; "Back Left (BL)"; "Back Right (BR)";
  "Front Left of Center (FLC)"; "Front Right of Center (FRC)";
  "Back Center (BC)"; "Side Left (SL)"; "Side Right (SR)";
  "Top Center (TC)"; "Top Front Left (TFL)"; "Top Front Center (TFC)";
  "Top Front Right (TFR)"; "Top Back Left (TBL)"; "Top Back Center (TBC)";
  "Top Back Right (TBR)"; "Top Front Left of Center (TFLC)";
  "Top Front Right of Center (TFRC)"; "Left Low Frequency Effects (LLFE)";
  "Right Low Frequency Effects (RLFE)"; "Top Side Left (TSL)";
  "Top Side Right (TSR)"; "Bottom Center (BC)";
  "Back Left of Center (BLC)"; "Back Right of Center (BRC)" ].

Definition uac2_interface_header_bmcontrols : table :=
  [ Some "Latency control"; None ].

Definition uac2_input_term_bmcontrols : table :=
  [ Some "Copy Protect"; Some "Connector"; Some "Overload"; Some "Cluster";
    Some "Underflow"; Some "Overflow"; None ].

Definition uac2_output_term_bmcontrols : table :=
  [ Some "Copy Protect"; Some "Connector"; Some "Overload";
    Some "Underflow"; Some "Overflow"; None ].

Definition uac2_mixer_unit_bmcontrols : table :=
  [ Some "Cluster"; Some "Underflow"; Some "Overflow"; None ].

Definition uac2_selector_unit_bmcontrols : table :=
  [ Some "Selector"; None ].

Definition uac_feature_unit_bmcontrols : table :=
  [ Some "Mute"; Some "Volume"; Some "Bass"; Some "Mid"; Some "Treble";
    Some "Graphic Equalizer"; Some "Automatic Gain"; Some "Delay";
    Some "Bass Boost"; Some "Loudness"; Some "Input gain";
    Some "Input gain pad"; Some "Phase inverter"; None ].

Definition uac2_extension_unit_bmcontrols : table :=
  [ Some "Enable"; Some "Cluster"; Some "Underflow"; Some "Overflow"; None ].

Definition uac2_clock_source_bmcontrols : table :=
  [ Some "Clock Frequency"; Some "Clock Validity"; None ].

Definition uac2_clk_src_bmattr : table :=
  [ Some "External"; Some "Internal fixed"; Some "Internal variable";
    Some "Internal programmable" ].

Definition uac3_clk_src_bmattr : table :=
  [ Some "External"; Some "Internal"; Some "(asynchronous)";
    Some "(synchronized to SOF)" ].

Definition uac2_clock_selector_bmcontrols : table :=
  [ Some "Clock Selector"; None ].

Definition uac2_clock_multiplier_bmcontrols : table :=
  [ Some "Clock Numerator"; Some "Clock Denominator"; None ].

Definition uac2_as_interface_bmcontrols : table :=
  [ Some "Active Alternate Setting"; Some "Valid Alternate Setting"; None ].

(** wFormatTag hex prefix for format type *)
Definition UAC_FORMAT_TYPE_I : N := 0x0.
Definition UAC_FORMAT_TYPE_II : N := 0x1.
Definition UAC_FORMAT_TYPE_III : N := 0x2.

Definition audio_data_format_type_i : table :=
  [ Some "TYPE_I_UNDEFINED"; Some "PCM"; Some "PCM8"; Some "IEEE_FLOAT";
    Some "ALAW"; Some "MULAW" ].

Definition audio_data_format_type_ii : table :=
  [ Some "TYPE_II_UNDEFINED"; Some "MPEG"; Some "AC-3" ].

Definition audio_data_format_type_iii : table :=
  [ Some "TYPE_III_UNDEFINED"; Some "IEC1937_AC-3";
    Some "IEC1937_MPEG-1_Layer1"; Some "IEC1937_MPEG-Layer2/3/NOEXT";
    Some "IEC1937_MPEG-2_EXT"; Some "IEC1937_MPEG-2_Layer1_LS";
    Some "IEC1937_MPEG-2_Layer2/3_LS" ].

Definition uac1_as_endpoint_bmattributes : table :=
  [ Some "Sampling Frequency"; Some "Pitch";
    Some "Audio Data Format Control"; None; None; None; None;
    Some "MaxPacketsOnly" ].

Definition uac2_as_endpoint_bmattributes : table :=
  [ None; None; None; None; None; None; None; Some "MaxPacketsOnly" ].

Definition uac2_as_isochronous_audio_data_endpoint_bmcontrols : table :=
  [ Some "Pitch"; Some "Data Overrun"; Some "Data Underrun"; None ].

Definition uac_as_isochronous_audio_data_endpoint_blockdelayunits : table :=
  [ Some "Undefined"; Some "Milliseconds"; Some "Decoded PCM samples"; None ].

(** ** Special rendering functions *)

(** Special rendering function for UAC2 clock source bmAttributes: prints
    a space, [uac2_clk_src_bmattr[value & 0x3]], the word clock between
    spaces, then [uac3_clk_src_bmattr[3]] when [value & 0x4] is set and the
    empty string otherwise, then a newline. *)
Definition desc_snowflake_dump_uac2_clk_src_bmattr
    (value : N) (indent : N) : outcome string :=
  kind <~ array_get uac2_clk_src_bmattr (N.land value 0x3) ;;
  sof <~ (if N.eqb (N.land value 0x4) 0 then Done EmptyString
          else array_get uac3_clk_src_bmattr 3) ;;
  Done (" " ++ kind ++ " clock " ++ sof ++ nl).

(** The source holds two definitions of the wFormatTag renderer under one
    name; each lives in a module of its own here. *)

(** The definition whose bounds are computed from the type prefix and
    [ARRAY_LEN] of the format tables. *)
Module GenericRange.

Definition desc_snowflake_dump_uac1_as_interface_wformattag
    (value : N) (indent : N) : outcome string :=
  format_string <~
    (if value <=? N.shiftl UAC_FORMAT_TYPE_I 12
                  + ARRAY_LEN audio_data_format_type_i
     then array_get audio_data_format_type_i value
     else if (N.shiftl UAC_FORMAT_TYPE_II 12 <=? value)
             && (value <=? N.shiftl UAC_FORMAT_TYPE_II 12
                           + ARRAY_LEN audio_data_format_type_ii)
     then array_get audio_data_format_type_ii (N.land value 0xfff)
     else if (N.shiftl UAC_FORMAT_TYPE_III 12 <=? value)
             && (value <=? N.shiftl UAC_FORMAT_TYPE_III 12
                           + ARRAY_LEN audio_data_format_type_iii)
     then array_get audio_data_format_type_iii (N.land value 0xfff)
     else Done "undefined") ;;
  Done (" " ++ format_string ++ nl).

End GenericRange.

(** The definition whose bounds are written as literals. *)
Module LiteralRange.

Definition desc_snowflake_dump_uac1_as_interface_wformattag
    (value : N) (indent : N) : outcome string :=
  format_string <~
    (if value <=? 5
     then array_get audio_data_format_type_i value
     else if (0x1000 <=? value) && (value <=? 0x1002)
     then array_get audio_data_format_type_ii (N.land value 0xfff)
     else if (0x2000 <=? value) && (value <=? 0x2006)
     then array_get audio_data_format_type_iii (N.land value 0xfff)
     else Done "undefined") ;;
  Done (" " ++ format_string ++ nl).

End LiteralRange.

(** Special rendering function for UAC2 AS interface bmFormats: a newline,
    then one line per set bit [i < 5], padded to the field width
    [indent * 2] (an [unsigned int] product, so taken modulo 2^32), with
    [audio_data_format_type_i[i + 1]]. *)
Fixpoint bmformats_loop (value : N) (indent : N) (i : N) (n : nat)
    : outcome string :=
  match n with
  | O => Done EmptyString
  | S k =>
      line <~ (if N.eqb (N.land (N.shiftr value i) 0x1) 0
               then Done EmptyString
               else s <~ array_get audio_data_format_type_i (i + 1) ;;
                    Done (spaces (N.to_nat ((indent * 2) mod 2 ^ 32))
                          ++ s ++ nl)) ;;
      rest <~ bmformats_loop value indent (i + 1) k ;;
      Done (line ++ rest)
  end.

Definition desc_snowflake_dump_uac2_as_interface_bmformats
    (value : N) (indent : N) : outcome string :=
  body <~ bmformats_loop value indent 0 5 ;;
  Done (nl ++ body).

(** ** Descriptor definitions *)

(** The field types used by the definitions ([enum desc_type] of
    desc-defs.h, which the definitions below name but do not declare). *)
Inductive desc_type : Type :=
| DESC_CONSTANT
| DESC_NUMBER
| DESC_NUMBER_POSTFIX
| DESC_BITMAP
| DESC_BCD
| DESC_BMCONTROL_1
| DESC_BMCONTROL_2
| DESC_STR_DESC_INDEX
| DESC_TERMINAL_STR
| DESC_BITMAP_STRINGS
| DESC_NUMBER_STRINGS
| DESC_SNOWFLAKE.

(** The [.array] member: whether the field is an array, whether its length
    is counted in bits, and the fields that hold its length. *)
Record desc_array : Type := {
  array : bool;
  bits : bool;
  length_field1 : option string;
  length_field2 : option string
}.

(** The type-specific member of a definition. *)
Inductive desc_param : Type :=
| no_param
| bmcontrol (names : table)
| bitmap_strings (strings : table) (count : N)
| number_strings (names : table)
| number_postfix (text : string)
| snowflake (render : N -> N -> outcome string).

(** One entry of a [struct desc] array.  Members an initialiser leaves out
    are zero: [size = 0], [size_field = NULL], [array = false]. *)
Record desc : Type := {
  field : string;
  size : N;
  size_field : option string;
  type : desc_type;
  param : desc_param;
  array_ : desc_array
}.

(** A definition is the list of its entries; the [{ .field = NULL }]
    terminator is the end of the list. *)
Definition desc_def := list desc.

Definition not_array : desc_array :=
  {| array := false; bits := false;
     length_field1 := None; length_field2 := None |}.

(** [.array = { .array = true }] *)
Definition array_open : desc_array :=
  {| array := true; bits := false;
     length_field1 := None; length_field2 := None |}.

(** [.array = { .array = true, .length_field1 = f1 }] *)
Definition array_len1 (f1 : string) : desc_array :=
  {| array := true; bits := false;
     length_field1 := Some f1; length_field2 := None |}.

(** [.array = { .array = true, .bits = true, .length_field1 = f1,
    .length_field2 = f2 }] *)
Definition array_bits (f1 f2 : string) : desc_array :=
  {| array := true; bits := true;
     length_field1 := Some f1; length_field2 := Some f2 |}.

Definition D (f : string) (sz : N) (t : desc_type) : desc :=
  {| field := f; size := sz; size_field := None; type := t;
     param := no_param; array_ := not_array |}.

Definition DP (f : string) (sz : N) (t : desc_type) (p : desc_param) : desc :=
  {| field := f; size := sz; size_field := None; type := t;
     param := p; array_ := not_array |}.

Definition DA (f : string) (sz : N) (t : desc_type) (a : desc_array) : desc :=
  {| field := f; size := sz; size_field := None; type := t;
     param := no_param; array_ := a |}.

Definition DPA (f : string) (sz : N) (t : desc_type) (p : desc_param)
    (a : desc_array) : desc :=
  {| field := f; size := sz; size_field := None; type := t;
     param := p; array_ := a |}.

(** UAC1: 4.3.2 Class-Specific AC Interface Descriptor; Table 4-2. *)
Definition desc_audio_1_ac_header : desc_def := [
  D "bcdADC" 2 DESC_BCD;
  D "wTotalLength" 2 DESC_CONSTANT;
  D "bInCollection" 1 DESC_CONSTANT;
  DA "baInterfaceNr" 1 DESC_NUMBER array_open ].

(** UAC2: 4.7.2 Class-Specific AC Interface Descriptor; Table 4-5. *)
Definition desc_audio_2_ac_header : desc_def := [
  D "bcdADC" 2 DESC_BCD;
  D "bCategory" 1 DESC_CONSTANT;
  D "wTotalLength" 2 DESC_NUMBER;
  DP "bmControls" 1 DESC_BMCONTROL_2
     (bmcontrol uac2_interface_header_bmcontrols) ].

(** UAC2: 4.7.2.10 Effect Unit Descriptor; Table 4-15. *)
Definition desc_audio_2_ac_effect_unit : desc_def := [
  D "bUnitID" 1 DESC_NUMBER;
  D "wEffectType" 2 DESC_CONSTANT;
  D "bSourceID" 1 DESC_CONSTANT;
  DA "bmaControls" 4 DESC_BITMAP array_open;
  D "iEffects" 1 DESC_STR_DESC_INDEX ].

(** UAC1: 4.3.2.1 Input Terminal Descriptor; Table 4-3. *)
Definition desc_audio_1_ac_input_terminal : desc_def := [
  D "bTerminalID" 1 DESC_NUMBER;
  D "wTerminalType" 2 DESC_TERMINAL_STR;
  D "bAssocTerminal" 1 DESC_CONSTANT;
  D "bNrChannels" 1 DESC_NUMBER;
  DP "wChannelConfig" 2 DESC_BITMAP_STRINGS
     (bitmap_strings uac1_channel_names 12);
  D "iChannelNames" 1 DESC_STR_DESC_INDEX;
  D "iTerminal" 1 DESC_STR_DESC_INDEX ].

(** UAC2: 4.7.2.4 Input Terminal Descriptor; Table 4-9. *)
Definition desc_audio_2_ac_input_terminal : desc_def := [
  D "bTerminalID" 1 DESC_NUMBER;
  D "wTerminalType" 2 DESC_TERMINAL_STR;
  D "bAssocTerminal" 1 DESC_CONSTANT;
  D "bCSourceID" 1 DESC_CONSTANT;
  D "bNrChannels" 1 DESC_NUMBER;
  DP "bmChannelConfig" 4 DESC_BITMAP_STRINGS
     (bitmap_strings uac2_channel_names 26);
  D "iChannelNames" 1 DESC_STR_DESC_INDEX;
  DP "bmControls" 2 DESC_BMCONTROL_2 (bmcontrol uac2_input_term_bmcontrols);
  D "iTerminal" 1 DESC_STR_DESC_INDEX ].

(** UAC1: 4.3.2.2 Output Terminal Descriptor; Table 4-4. *)
Definition desc_audio_1_ac_output_terminal : desc_def := [
  D "bTerminalID" 1 DESC_NUMBER;
  D "wTerminalType" 2 DESC_TERMINAL_STR;
  D "bAssocTerminal" 1 DESC_NUMBER;
  D "bSourceID" 1 DESC_NUMBER;
  D "iTerminal" 1 DESC_STR_DESC_INDEX ].

(** UAC2: 4.7.2.5 Output Terminal Descriptor; Table 4-10. *)
Definition desc_audio_2_ac_output_terminal : desc_def := [
  D "bTerminalID" 1 DESC_NUMBER;
  D "wTerminalType" 2 DESC_TERMINAL_STR;
  D "bAssocTerminal" 1 DESC_NUMBER;
  D "bSourceID" 1 DESC_NUMBER;
  D "bCSourceID" 1 DESC_NUMBER;
  DP "bmControls" 2 DESC_BMCONTROL_2 (bmcontrol uac2_output_term_bmcontrols);
  D "iTerminal" 1 DESC_STR_DESC_INDEX ].

(** UAC1: 4.3.2.3 Mixer Unit Descriptor; Table 4-5. *)
Definition desc_audio_1_ac_mixer_unit : desc_def := [
  D "bUnitID" 1 DESC_NUMBER;
  D "bNrInPins" 1 DESC_NUMBER;
  DA "baSourceID" 1 DESC_NUMBER (array_len1 "bNrInPins");
  D "bNrChannels" 1 DESC_NUMBER;
  DP "wChannelConfig" 2 DESC_BITMAP_STRINGS
     (bitmap_strings uac1_channel_names 12);
  D "iChannelNames" 1 DESC_STR_DESC_INDEX;
  DA "bmControls" 1 DESC_BITMAP (array_bits "bNrInPins" "bNrChannels");
  D "iMixer" 1 DESC_STR_DESC_INDEX ].

(** UAC2: 4.7.2.6 Mixer Unit Descriptor; Table 4-11. *)
Definition desc_audio_2_ac_mixer_unit : desc_def := [
  D "bUnitID" 1 DESC_NUMBER;
  D "bNrInPins" 1 DESC_NUMBER;
  DA "baSourceID" 1 DESC_NUMBER (array_len1 "bNrInPins");
  D "bNrChannels" 1 DESC_NUMBER;
  DP "bmChannelConfig" 4 DESC_BITMAP_STRINGS
     (bitmap_strings uac2_channel_names 26);
  D "iChannelNames" 1 DESC_STR_DESC_INDEX;
  DA "bmMixerControls" 1 DESC_BITMAP (array_bits "bNrInPins" "bNrChannels");
  DP "bmControls" 1 DESC_BMCONTROL_2 (bmcontrol uac2_mixer_unit_bmcontrols);
  D "iMixer" 1 DESC_STR_DESC_INDEX ].

(** UAC1: 4.3.2.4 Selector Unit Descriptor; Table 4-6. *)
Definition desc_audio_1_ac_selector_unit : desc_def := [
  D "bUnitID" 1 DESC_NUMBER;
  D "bNrInPins" 1 DESC_NUMBER;
  DA "baSourceID" 1 DESC_NUMBER (array_len1 "bNrInPins");
  D "iSelector" 1 DESC_STR_DESC_INDEX ].

(** UAC2: 4.7.2.7 Selector Unit Descriptor; Table 4-12. *)
Definition desc_audio_2_ac_selector_unit : desc_def := [
  D "bUnitID" 1 DESC_NUMBER;
  D "bNrInPins" 1 DESC_NUMBER;
  DA "baSourceID" 1 DESC_NUMBER (array_len1 "bNrInPins");
  DP "bmControls" 1 DESC_BMCONTROL_2
     (bmcontrol uac2_selector_unit_bmcontrols);
  D "iSelector" 1 DESC_STR_DESC_INDEX ].

(** UAC1: 4.3.2.6 Processing Unit Descriptor; Table 4-8. *)
Definition desc_audio_1_ac_processing_unit : desc_def := [
  D "bUnitID" 1 DESC_NUMBER;
  D "wProcessType" 2 DESC_CONSTANT;
  D "bNrInPins" 1 DESC_NUMBER;
  DA "baSourceID" 1 DESC_NUMBER (array_len1 "bNrInPins");
  D "bNrChannels" 1 DESC_NUMBER;
  DP "wChannelConfig" 2 DESC_BITMAP_STRINGS
     (bitmap_strings uac1_channel_names 12);
  D "iChannelNames" 1 DESC_STR_DESC_INDEX;
  D "bControlSize" 1 DESC_NUMBER;
  DA "bmControls" 1 DESC_BITMAP (array_len1 "bControlSize");
  D "iProcessing" 1 DESC_STR_DESC_INDEX;
  DA "Process-specific" 1 DESC_BITMAP array_open ].

(** UAC2: 4.7.2.11 Processing Unit Descriptor; Table 4-20. *)
Definition desc_audio_2_ac_processing_unit : desc_def := [
  D "bUnitID" 1 DESC_NUMBER;
  D "wProcessType" 2 DESC_CONSTANT;
  D "bNrInPins" 1 DESC_NUMBER;
  DA "baSourceID" 1 DESC_NUMBER (array_len1 "bNrInPins");
  D "bNrChannels" 1 DESC_NUMBER;
  DP "bmChannelConfig" 4 DESC_BITMAP_STRINGS
     (bitmap_strings uac2_channel_names 26);
  D "iChannelNames" 1 DESC_STR_DESC_INDEX;
  D "bControlSize" 1 DESC_NUMBER;
  DA "bmControls" 2 DESC_BITMAP (array_len1 "bControlSize");
  D "iProcessing" 1 DESC_STR_DESC_INDEX;
  DA "Process-specific" 1 DESC_BITMAP array_open ].

(** UAC1: 4.3.2.5 Feature Unit Descriptor; Table 4-7. *)
Definition desc_audio_1_ac_feature_unit : desc_def := [
  D "bUnitID" 1 DESC_NUMBER;
  D "bSourceID" 1 DESC_CONSTANT;
  D "bControlSize" 1 DESC_NUMBER;
  {| field := "bmaControls"; size := 0; size_field := Some "bControlSize";
     type := DESC_BMCONTROL_1;
     param := bmcontrol uac_feature_unit_bmcontrols;
     array_ := array_open |};
  D "iFeature" 1 DESC_STR_DESC_INDEX ].

(** UAC2: 4.7.2.8 Feature Unit Descriptor; Table 4-13. *)
Definition desc_audio_2_ac_feature_unit : desc_def := [
  D "bUnitID" 1 DESC_NUMBER;
  D "bSourceID" 1 DESC_CONSTANT;
  DPA "bmaControls" 4 DESC_BMCONTROL_2
      (bmcontrol uac_feature_unit_bmcontrols) array_open;
  D "iFeature" 1 DESC_STR_DESC_INDEX ].

(** UAC1: 4.3.2.7 Extension Unit Descriptor; Table 4-15. *)
Definition desc_audio_1_ac_extension_unit : desc_def := [
  D "bUnitID" 1 DESC_NUMBER;
  D "wExtensionCode" 2 DESC_CONSTANT;
  D "bNrInPins" 1 DESC_NUMBER;
  DA "baSourceID" 1 DESC_NUMBER (array_len1 "bNrInPins");
  D "bNrChannels" 1 DESC_NUMBER;
  DP "wChannelConfig" 2 DESC_BITMAP_STRINGS
     (bitmap_strings uac1_channel_names 12);
  D "iChannelNames" 1 DESC_STR_DESC_INDEX;
  D "bControlSize" 1 DESC_NUMBER;
  DA "bmControls" 1 DESC_BITMAP (array_len1 "bControlSize");
  D "iExtension" 1 DESC_STR_DESC_INDEX ].

(** UAC2: 4.7.2.12 Extension Unit Descriptor; Table 4-24. *)
Definition desc_audio_2_ac_extension_unit : desc_def := [
  D "bUnitID" 1 DESC_NUMBER;
  D "wExtensionCode" 2 DESC_CONSTANT;
  D "bNrInPins" 1 DESC_NUMBER;
  DA "baSourceID" 1 DESC_NUMBER (array_len1 "bNrInPins");
  D "bNrChannels" 1 DESC_NUMBER;
  DP "bmChannelConfig" 4 DESC_BITMAP_STRINGS
     (bitmap_strings uac2_channel_names 26);
  D "iChannelNames" 1 DESC_STR_DESC_INDEX;
  DP "bmControls" 1 DESC_BMCONTROL_2
     (bmcontrol uac2_extension_unit_bmcontrols);
  D "iExtension" 1 DESC_STR_DESC_INDEX ].

(** UAC2: 4.7.2.1 Clock Source Descriptor; Table 4-6. *)
Definition desc_audio_2_ac_clock_source : desc_def := [
  D "bClockID" 1 DESC_CONSTANT;
  DP "bmAttributes" 1 DESC_SNOWFLAKE
     (snowflake desc_snowflake_dump_uac2_clk_src_bmattr);
  DP "bmControls" 1 DESC_BMCONTROL_2 (bmcontrol uac2_clock_source_bmcontrols);
  D "bAssocTerminal" 1 DESC_CONSTANT;
  D "iClockSource" 1 DESC_STR_DESC_INDEX ].

(** UAC2: 4.7.2.2 Clock Selector Descriptor; Table 4-7. *)
Definition desc_audio_2_ac_clock_selector : desc_def := [
  D "bClockID" 1 DESC_NUMBER;
  D "bNrInPins" 1 DESC_NUMBER;
  DA "baCSourceID" 1 DESC_NUMBER (array_len1 "bNrInPins");
  DP "bmControls" 1 DESC_BMCONTROL_2
     (bmcontrol uac2_clock_selector_bmcontrols);
  D "iClockSelector" 1 DESC_STR_DESC_INDEX ].

(** UAC2: 4.7.2.3 Clock Multiplier Descriptor; Table 4-8. *)
Definition desc_audio_2_ac_clock_multiplier : desc_def := [
  D "bClockID" 1 DESC_CONSTANT;
  D "bCSourceID" 1 DESC_NUMBER;
  DP "bmControls" 1 DESC_BMCONTROL_2
     (bmcontrol uac2_clock_multiplier_bmcontrols);
  D "iClockMultiplier" 1 DESC_STR_DESC_INDEX ].

(** UAC2: 4.7.2.9 Sampling Rate Converter Descriptor; Table 4-14. *)
Definition desc_audio_2_ac_sample_rate_converter : desc_def := [
  D "bUnitID" 1 DESC_CONSTANT;
  D "bSourceID" 1 DESC_CONSTANT;
  D "bCSourceInID" 1 DESC_CONSTANT;
  D "bCSourceOutID" 1 DESC_CONSTANT;
  D "iSRC" 1 DESC_STR_DESC_INDEX ].

(** UAC1: 4.5.2 Class-Specific AS Interface Descriptor; Table 4-19.  The
    [.snowflake] member names the wFormatTag renderer; [wformattag] is the
    definition of that name the entry is built with. *)
Definition desc_audio_1_as_interface_with
    (wformattag : N -> N -> outcome string) : desc_def := [
  D "bTerminalLink" 1 DESC_CONSTANT;
  DP "bDelay" 1 DESC_NUMBER_POSTFIX (number_postfix " frames");
  DP "wFormatTag" 2 DESC_SNOWFLAKE (snowflake wformattag) ].

Definition desc_audio_1_as_interface : desc_def :=
  desc_audio_1_as_interface_with
    LiteralRange.desc_snowflake_dump_uac1_as_interface_wformattag.

(** UAC2: 4.9.2 Class-Specific AS Interface Descriptor; Table 4-27. *)
Definition desc_audio_2_as_interface : desc_def := [
  D "bTerminalLink" 1 DESC_NUMBER;
  DP "bmControls" 1 DESC_BMCONTROL_2 (bmcontrol uac2_as_interface_bmcontrols);
  D "bFormatType" 1 DESC_CONSTANT;
  DP "bmFormats" 4 DESC_SNOWFLAKE
     (snowflake desc_snowflake_dump_uac2_as_interface_bmformats);
  D "bNrChannels" 1 DESC_NUMBER;
  DP "bmChannelConfig" 4 DESC_BITMAP_STRINGS
     (bitmap_strings uac2_channel_names 26);
  D "iChannelNames" 1 DESC_STR_DESC_INDEX ].

(** UAC1: 4.6.1.2 Class-Specific AS Isochronous Audio Data Endpoint
    Descriptor; Table 4-21. *)
Definition desc_audio_1_as_isochronous_audio_data_endpoint : desc_def := [
  DP "bmAttributes" 1 DESC_BITMAP_STRINGS
     (bitmap_strings uac1_as_endpoint_bmattributes 8);
  DP "bLockDelayUnits" 1 DESC_NUMBER_STRINGS
     (number_strings uac_as_isochronous_audio_data_endpoint_blockdelayunits);
  D "wLockDelay" 2 DESC_NUMBER ].

(** UAC2: 4.10.1.2 Class-Specific AS Isochronous Audio Data Endpoint
    Descriptor; Table 4-34. *)
Definition desc_audio_2_as_isochronous_audio_data_endpoint : desc_def := [
  DP "bmAttributes" 1 DESC_BITMAP_STRINGS
     (bitmap_strings uac2_as_endpoint_bmattributes 8);
  DP "bmControls" 1 DESC_BMCONTROL_2
     (bmcontrol uac2_as_isochronous_audio_data_endpoint_bmcontrols);
  DP "bLockDelayUnits" 1 DESC_NUMBER_STRINGS
     (number_strings uac_as_isochronous_audio_data_endpoint_blockdelayunits);
  D "wLockDelay" 2 DESC_NUMBER ].

(** ** Definitions per Audio Device Class protocol

    Each exported array has three slots, for UAC1, UAC2 and UAC3; [None]
    is a [NULL] slot. *)

Definition desc_audio_ac_header : list (option desc_def) :=
  [ Some desc_audio_1_ac_header; Some desc_audio_2_ac_header; None ].

Definition desc_audio_ac_effect_unit : list (option desc_def) :=
  [ None; Some desc_audio_2_ac_effect_unit; None ].

Definition desc_audio_ac_input_terminal : list (option desc_def) :=
  [ Some desc_audio_1_ac_input_terminal;
    Some desc_audio_2_ac_input_terminal; None ].

Definition desc_audio_ac_output_terminal : list (option desc_def) :=
  [ Some desc_audio_1_ac_output_terminal;
    Some desc_audio_2_ac_output_terminal; None ].

Definition desc_audio_ac_mixer_unit : list (option desc_def) :=
  [ Some desc_audio_1_ac_mixer_unit; Some desc_audio_2_ac_mixer_unit; None ].

Definition desc_audio_ac_selector_unit : list (option desc_def) :=
  [ Some desc_audio_1_ac_selector_unit;
    Some desc_audio_2_ac_selector_unit; None ].

Definition desc_audio_ac_processing_unit : list (option desc_def) :=
  [ Some desc_audio_1_ac_processing_unit;
    Some desc_audio_2_ac_processing_unit; None ].

Definition desc_audio_ac_feature_unit : list (option desc_def) :=
  [ Some desc_audio_1_ac_feature_unit;
    Some desc_audio_2_ac_feature_unit; None ].

Definition desc_audio_ac_extension_unit : list (option desc_def) :=
  [ Some desc_audio_1_ac_extension_unit;
    Some desc_audio_2_ac_extension_unit; None ].

Definition desc_audio_ac_clock_source : list (option desc_def) :=
  [ None; Some desc_audio_2_ac_clock_source; None ].

Definition desc_audio_ac_clock_selector : list (option desc_def) :=
  [ None; Some desc_audio_2_ac_clock_selector; None ].

Definition desc_audio_ac_clock_multiplier : list (option desc_def) :=
  [ None; Some desc_audio_2_ac_clock_multiplier; None ].

Definition desc_audio_ac_sample_rate_converter : list (option desc_def) :=
  [ None; Some desc_audio_2_ac_sample_rate_converter; None ].

Definition desc_audio_as_interface : list (option desc_def) :=
  [ Some desc_audio_1_as_interface; Some desc_audio_2_as_interface; None ].

Definition desc_audio_as_isochronous_audio_data_endpoint
    : list (option desc_def) :=
  [ Some desc_audio_1_as_isochronous_audio_data_endpoint;
    Some desc_audio_2_as_isochronous_audio_data_endpoint; None ].

(** ** Schema registry *)

(** The three Audio Device Class protocols and the slot each selects. *)
Inductive uac_protocol : Type := UAC1 | UAC2 | UAC3.

Definition protocol_index (p : uac_protocol) : nat :=
  match p with UAC1 => 0 | UAC2 => 1 | UAC3 => 2 end%nat.

(** One descriptor kind per exported array. *)
Inductive descriptor_kind : Type :=
| AC_HEADER
| AC_EFFECT_UNIT
| AC_INPUT_TERMINAL
| AC_OUTPUT_TERMINAL
| AC_MIXER_UNIT
| AC_SELECTOR_UNIT
| AC_PROCESSING_UNIT
| AC_FEATURE_UNIT
| AC_EXTENSION_UNIT
| AC_CLOCK_SOURCE
| AC_CLOCK_SELECTOR
| AC_CLOCK_MULTIPLIER
| AC_SAMPLE_RATE_CONVERTER
| AS_INTERFACE
| AS_ISOCHRONOUS_AUDIO_DATA_ENDPOINT.

Definition all_kinds : list descriptor_kind :=
  [ AC_HEADER; AC_EFFECT_UNIT; AC_INPUT_TERMINAL; AC_OUTPUT_TERMINAL;
    AC_MIXER_UNIT; AC_SELECTOR_UNIT; AC_PROCESSING_UNIT; AC_FEATURE_UNIT;
    AC_EXTENSION_UNIT; AC_CLOCK_SOURCE; AC_CLOCK_SELECTOR;
    AC_CLOCK_MULTIPLIER; AC_SAMPLE_RATE_CONVERTER; AS_INTERFACE;
    AS_ISOCHRONOUS_AUDIO_DATA_ENDPOINT ].

(** The exported array of a descriptor kind. *)
Definition registry (k : descriptor_kind) : list (option desc_def) :=
  match k with
  | AC_HEADER => desc_audio_ac_header
  | AC_EFFECT_UNIT => desc_audio_ac_effect_unit
  | AC_INPUT_TERMINAL => desc_audio_ac_input_terminal
  | AC_OUTPUT_TERMINAL => desc_audio_ac_output_terminal
  | AC_MIXER_UNIT => desc_audio_ac_mixer_unit
  | AC_SELECTOR_UNIT => desc_audio_ac_selector_unit
  | AC_PROCESSING_UNIT => desc_audio_ac_processing_unit
  | AC_FEATURE_UNIT => desc_audio_ac_feature_unit
  | AC_EXTENSION_UNIT => desc_audio_ac_extension_unit
  | AC_CLOCK_SOURCE => desc_audio_ac_clock_source
  | AC_CLOCK_SELECTOR => desc_audio_ac_clock_selector
  | AC_CLOCK_MULTIPLIER => desc_audio_ac_clock_multiplier
  | AC_SAMPLE_RATE_CONVERTER => desc_audio_ac_sample_rate_converter
  | AS_INTERFACE => desc_audio_as_interface
  | AS_ISOCHRONOUS_AUDIO_DATA_ENDPOINT =>
      desc_audio_as_isochronous_audio_data_endpoint
  end.

(** [lookup kind generation]: the subscript [desc_audio_..._kind[generation]]
    of the exported array, with a [NULL] slot read as "unsupported". *)
Definition lookup (k : descriptor_kind) (p : uac_protocol) : option desc_def :=
  match nth_error (registry k) (protocol_index p) with
  | Some (Some d) => Some d
  | Some None => None
  | None => None
  end.

(** Every definition an exported array holds. *)
Definition all_definitions : list desc_def :=
  flat_map
    (fun k => flat_map (fun slot => match slot with
                                    | Some d => [d]
                                    | None => []
                                    end) (registry k))
    all_kinds.

(** ** Cross-field references *)

Definition opt_list {A} (o : option A) : list A :=
  match o with Some a => [a] | None => [] end.

(** The fields an entry refers to by name. *)
Definition references (f : desc) : list string :=
  opt_list (size_field f) ++ opt_list (length_field1 (array_ f))
  ++ opt_list (length_field2 (array_ f)).

Definition mem_string (s : string) (l : list string) : bool :=
  existsb (String.eqb s) l.

(** [refs_earlier_from seen d]: every reference of every entry of [d]
    names a field of [seen] or an entry of [d] before it. *)
Fixpoint refs_earlier_from (seen : list string) (d : desc_def) : bool :=
  match d with
  | [] => true
  | f :: rest =>
      forallb (fun r => mem_string r seen) (references f)
      && refs_earlier_from (field f :: seen) rest
  end.

Definition refs_earlier (d : desc_def) : bool := refs_earlier_from [] d.

(** [refs_scalar_from seen d]: every reference of every entry of [d]
    names a field of [seen] or an entry of [d] before it that is not an
    array, so that a value is on record for it whenever it is decoded. *)
Fixpoint refs_scalar_from (seen : list string) (d : desc_def) : bool :=
  match d with
  | [] => true
  | f :: rest =>
      forallb (fun r => mem_string r seen) (references f)
      && refs_scalar_from
           (if array (array_ f) then seen else field f :: seen) rest
  end.

(** Names of a definition's fields are pairwise distinct. *)
Fixpoint distinct_names (l : list string) : bool :=
  match l with
  | [] => true
  | s :: rest => negb (mem_string s rest) && distinct_names rest
  end.

(** ** Field decoder

    desc-defs.c is the data half of the descriptor dumper; the code that
    walks a definition over the bytes of a descriptor is not part of it.
    The walker below follows the specification of the field decoder. *)

Inductive DecodeError : Type :=
| BufferUnderrun
| UnsupportedCombination
| MalformedSchema.

Inductive result (A : Type) : Type :=
| Ok (a : A)
| Error (e : DecodeError).

Arguments Ok {A} a.
Arguments Error {A} e.

Definition rbind {A B} (m : result A) (k : A -> result B) : result B :=
  match m with
  | Ok a => k a
  | Error e => Error e
  end.

Notation "x <- m ;; k" := (rbind m (fun x => k))
  (at level 61, m at next level, right associativity).
Notation "' p <- m ;; k" := (rbind m (fun x => let 'p := x in k))
  (at level 61, p pattern, m at next level, right associativity).

(** Modelled from the spec: the Decode Context's append-only ordered mapping
    from field name to decoded integer value (section 3). *)
Definition context := list (string * N).

Fixpoint ctx_lookup (ctx : context) (name : string) : option N :=
  match ctx with
  | [] => None
  | (n, v) :: rest => if String.eqb n name then Some v else ctx_lookup rest name
  end.

(** A context has a value on record for every name of [seen]. *)
Definition on_record (seen : list string) (ctx : context) : Prop :=
  forall name, In name seen -> ctx_lookup ctx name <> None.

(** The access level of a two-bit control group: 01, 10 and 11. *)
Inductive access_level : Type := ReadOnly | Reserved | ReadWrite.

(** Modelled from the spec: what each field kind renders (section 4.2,
    step 4), kept as data. *)
Inductive rendered : Type :=
| R_number (v : N)
| R_constant (v : N)
| R_bcd (major minor : N)
| R_string_index (v : N)
| R_terminal_type (v : N)
| R_number_with_suffix (v : N) (suffix : string)
| R_number_from_table (label : string)
| R_bitmap (v : N)
| R_bitmap_from_table (labels : list string)
| R_control_bits_1 (present : list string)
| R_control_bits_2 (present : list (string * access_level))
| R_custom (text : outcome string).

(** Modelled from the spec: a Bit/Label Table maps an index to a label, or
    to nothing when the index has no entry (section 3). *)
Definition label (t : table) (i : N) : option string :=
  match nth_error t (N.to_nat i) with
  | Some (Some s) => Some s
  | Some None => None
  | None => None
  end.

(** Modelled from the spec: NUMBER_FROM_TABLE, an index without a label
    renders as "undefined". *)
Definition number_from_table (t : table) (v : N) : string :=
  match label t v with
  | Some s => s
  | None => "undefined"
  end.

(** Modelled from the spec: BITMAP_FROM_TABLE, the labels of the set bits
    among the first [count]; unset or unlabeled bits are omitted. *)
Definition bitmap_from_table (t : table) (count : N) (v : N) : list string :=
  flat_map
    (fun i => if N.testbit v (N.of_nat i)
              then opt_list (label t (N.of_nat i)) else [])
    (seq 0 (N.to_nat count)).

(** Modelled from the spec: CONTROL_BITS_1, one bit per control; the names
    of the controls whose bit is set. *)
Definition control_bits_1 (t : table) (v : N) : list string :=
  flat_map
    (fun i => if N.testbit v (N.of_nat i)
              then opt_list (label t (N.of_nat i)) else [])
    (seq 0 (length t)).

(** Modelled from the spec: the meaning of a two-bit control group:
    00 = not present, 01 = read-only, 10 = reserved, 11 = read-write. *)
Definition access_of (group : N) : option access_level :=
  match group with
  | 1 => Some ReadOnly
  | 2 => Some Reserved
  | 3 => Some ReadWrite
  | _ => None
  end.

(** Modelled from the spec: CONTROL_BITS_2, two bits per control; each
    present control with its access level. *)
Definition control_bits_2 (t : table) (v : N)
    : list (string * access_level) :=
  flat_map
    (fun i =>
       match label t (N.of_nat i),
             access_of (N.land (N.shiftr v (2 * N.of_nat i)) 0x3) with
       | Some s, Some a => [(s, a)]
       | _, _ => []
       end)
    (seq 0 (length t)).

(** Modelled from the spec: interpretation of a decoded value by field
    kind (section 4.2, step 4).  An entry whose type-specific member does
    not fit its type keeps the value as it is. *)
Definition render (f : desc) (v : N) (indent : N) : rendered :=
  match type f, param f with
  | DESC_NUMBER, _ => R_number v
  | DESC_CONSTANT, _ => R_constant v
  | DESC_BCD, _ => R_bcd (N.shiftr v 8) (N.land v 0xff)
  | DESC_STR_DESC_INDEX, _ => R_string_index v
  | DESC_TERMINAL_STR, _ => R_terminal_type v
  | DESC_NUMBER_POSTFIX, number_postfix s => R_number_with_suffix v s
  | DESC_NUMBER_STRINGS, number_strings t =>
      R_number_from_table (number_from_table t v)
  | DESC_BITMAP, _ => R_bitmap v
  | DESC_BITMAP_STRINGS, bitmap_strings t c =>
      R_bitmap_from_table (bitmap_from_table t c v)
  | DESC_BMCONTROL_1, bmcontrol t => R_control_bits_1 (control_bits_1 t v)
  | DESC_BMCONTROL_2, bmcontrol t => R_control_bits_2 (control_bits_2 t v)
  | DESC_SNOWFLAKE, snowflake g => R_custom (g v indent)
  | _, _ => R_number v
  end.

(** Modelled from the spec: an unsigned little-endian integer. *)
Fixpoint le_value (bs : list byte) : N :=
  match bs with
  | [] => 0
  | b :: rest => Byte.to_N b + 256 * le_value rest
  end.

(** Modelled from the spec: read [w] bytes as an unsigned little-endian
    integer, or fail with BufferUnderrun when fewer remain (section 4.2,
    step 3). *)
Definition read_le (w : nat) (buf : list byte) : result (N * list byte) :=
  if (length buf <? w)%nat then Error BufferUnderrun
  else Ok (le_value (firstn w buf), skipn w buf).

(** Modelled from the spec: the effective byte width, literal or the value
    decoded for [size_field] (section 4.2, step 1). *)
Definition resolve_width (f : desc) (ctx : context) : result N :=
  match size_field f with
  | None => Ok (size f)
  | Some name =>
      match ctx_lookup ctx name with
      | Some v => Ok v
      | None => Error MalformedSchema
      end
  end.

(** One decoded field: its name, the width and repetition count resolved
    for it, the bytes it consumed, and each repetition's value with its
    rendering. *)
Record decoded_field : Type := {
  df_name : string;
  df_width : N;
  df_count : N;
  df_consumed : nat;
  df_values : list (N * rendered)
}.

Definition DecodedRecord := list decoded_field.

Definition find_field (r : DecodedRecord) (name : string)
    : option decoded_field :=
  find (fun d => String.eqb (df_name d) name) r.

(** The value a record holds for a field: that of its first repetition. *)
Definition field_value (r : DecodedRecord) (name : string) : option N :=
  match find_field r name with
  | Some d =>
      match df_values d with
      | (v, _) :: _ => Some v
      | [] => None
      end
  | None => None
  end.

Section FieldDecoder.

(** The repetition count of an array that names no length field.  The
    specification calls it a fixed count and does not say where it comes
    from, so the decoder takes it as an argument. *)
Variable fixed_count : N.

(** The current indent depth, handed to custom decoders. *)
Variable indent : N.

(** Modelled from the spec: the repetition count: 1 for a scalar; for an
    array the fixed count, the value decoded for [length_field1], or the
    product of the values decoded for [length_field1] and [length_field2]
    (section 4.2, step 2). *)
Definition resolve_count (f : desc) (ctx : context) : result N :=
  if array (array_ f) then
    match length_field1 (array_ f) with
    | None => Ok fixed_count
    | Some f1 =>
        match ctx_lookup ctx f1 with
        | None => Error MalformedSchema
        | Some v1 =>
            match length_field2 (array_ f) with
            | None => Ok v1
            | Some f2 =>
                match ctx_lookup ctx f2 with
                | None => Error MalformedSchema
                | Some v2 => Ok (v1 * v2)
                end
            end
        end
    end
  else Ok 1.

(** Modelled from the spec: read [n] repetitions of [w] bytes each, and
    count the bytes read (section 4.2, steps 3 and 4). *)
Fixpoint read_entries (f : desc) (w : nat) (n : nat) (buf : list byte)
    : result (list (N * rendered) * nat * list byte) :=
  match n with
  | O => Ok ([], O, buf)
  | S k =>
      '(v, buf1) <- read_le w buf ;;
      '(vs, used, buf2) <- read_entries f w k buf1 ;;
      Ok ((v, render f v indent) :: vs, (w + used)%nat, buf2)
  end.

(** Modelled from the spec: decode one field against the context: resolve
    width and count, read the repetitions, record each value under the
    field's name (section 4.2, steps 1 to 6). *)
Definition decode_field (f : desc) (ctx : context) (buf : list byte)
    : result (decoded_field * context * list byte) :=
  w <- resolve_width f ctx ;;
  c <- resolve_count f ctx ;;
  '(vs, used, rest) <- read_entries f (N.to_nat w) (N.to_nat c) buf ;;
  Ok ({| df_name := field f; df_width := w; df_count := c;
         df_consumed := used;
         df_values := vs |},
      (ctx ++ map (fun e => (field f, fst e)) vs)%list,
      rest).

(** Modelled from the spec: walk the fields in schema order, in a single
    forward pass. *)
Fixpoint decode_fields (d : desc_def) (ctx : context) (buf : list byte)
    : result (DecodedRecord * context * list byte) :=
  match d with
  | [] => Ok ([], ctx, buf)
  | f :: rest =>
      '(df, ctx1, buf1) <- decode_field f ctx buf ;;
      '(dfs, ctx2, buf2) <- decode_fields rest ctx1 buf1 ;;
      Ok (df :: dfs, ctx2, buf2)
  end.

(** Modelled from the spec: [decode(schema, buffer)], the decoded record
    and the bytes left over, or an error that carries no output. *)
Definition decode (d : desc_def) (buf : list byte)
    : result (DecodedRecord * list byte) :=
  '(r, _, rest) <- decode_fields d [] buf ;;
  Ok (r, rest).

(** Modelled from the spec: [render_descriptor(kind, generation, buffer)]
    (section 4.4). *)
Definition render_descriptor (k : descriptor_kind) (p : uac_protocol)
    (buf : list byte) : result (DecodedRecord * list byte) :=
  match lookup k p with
  | None => Error UnsupportedCombination
  | Some d => decode d buf
  end.

End FieldDecoder.

(** ** Shapes of entries *)

(** An array whose length no field gives:
    [.array = { .array = true }]. *)
Definition is_open_array (f : desc) : bool :=
  array (array_ f)
  && match length_field1 (array_ f) with None => true | Some _ => false end.

(** A single value of a literal size. *)
Definition is_fixed_scalar (f : desc) : bool :=
  negb (array (array_ f))
  && match size_field f with None => true | Some _ => false end.

(** Every entry after an array of no given length is a single value of a
    literal size. *)
Fixpoint open_array_then_fixed (d : desc_def) : bool :=
  match d with
  | [] => true
  | f :: rest =>
      (if is_open_array f then forallb is_fixed_scalar rest else true)
      && open_array_then_fixed rest
  end.

(** ** Helper lemmas *)

Lemma mem_string_In (s : string) (l : list string) :
  mem_string s l = true -> In s l.
Proof.
  unfold mem_string. intros H.
  apply existsb_exists in H. destruct H as [x [Hin Heq]].
  apply String.eqb_eq in Heq. now subst.
Qed.

Lemma references_in_seen (seen : list string) (d : desc_def) :
  refs_earlier_from seen d = true ->
  forall pre f post r,
    d = (pre ++ f :: post)%list ->
    In r (references f) ->
    In r (rev (map field pre) ++ seen)%list.
Proof.
  revert seen. induction d as [|g d IH]; intros seen Hok pre f post r Hd Hr.
  - destruct pre; discriminate.
  - simpl in Hok. apply andb_true_iff in Hok. destruct Hok as [Hg Hrest].
    destruct pre as [|p pre]; simpl in Hd; injection Hd as -> ->.
    + simpl. rewrite forallb_forall in Hg. apply mem_string_In. now apply Hg.
    + specialize (IH (field p :: seen) Hrest pre f post r eq_refl Hr).
      simpl. rewrite <- app_assoc. exact IH.
Qed.

Lemma distinct_names_NoDup (l : list string) :
  distinct_names l = true -> NoDup l.
Proof.
  induction l as [|s l IH]; simpl; intros H; [constructor|].
  apply andb_true_iff in H. destruct H as [Hs Hl].
  constructor; [|now apply IH].
  intros Hin. apply negb_true_iff in Hs.
  assert (mem_string s l = true) as Hm.
  { unfold mem_string. apply existsb_exists. exists s. split; [assumption|].
    apply String.eqb_refl. }
  congruence.
Qed.

(** The whole table of definitions passes both checks. *)
Lemma all_definitions_checked :
  forallb (fun d => refs_earlier d && distinct_names (map field d))
          all_definitions = true.
Proof. vm_compute. reflexivity. Qed.

Lemma all_definitions_refs_scalar :
  forallb (refs_scalar_from []) all_definitions = true.
Proof. vm_compute. reflexivity. Qed.

(** ** The wFormatTag renderers *)

(** C7: the UAC1 AS Interface wFormatTag renderer prints PCM for the value
    0x0001 and IEC1937_MPEG-1_Layer1 for the value 0x2002, whose low twelve
    bits are 2 and index the type III table; both definitions of the
    renderer agree on it. *)
Theorem wformattag_pcm_and_iec1937_mpeg1_layer1 :
  forall indent : N,
    LiteralRange.desc_snowflake_dump_uac1_as_interface_wformattag 0x0001 indent
      = Done (" PCM" ++ nl)
    /\ LiteralRange.desc_snowflake_dump_uac1_as_interface_wformattag
         0x2002 indent
       = Done (" IEC1937_MPEG-1_Layer1" ++ nl)
    /\ GenericRange.desc_snowflake_dump_uac1_as_interface_wformattag
         0x0001 indent
       = Done (" PCM" ++ nl)
    /\ GenericRange.desc_snowflake_dump_uac1_as_interface_wformattag
         0x2002 indent
       = Done (" IEC1937_MPEG-1_Layer1" ++ nl)
    /\ N.land 0x2002 0xfff = 2
    /\ array_get audio_data_format_type_iii 2 = Done "IEC1937_MPEG-1_Layer1".
Proof.
  intros indent. repeat split.
Qed.

Lemma generic_bounds :
  N.shiftl UAC_FORMAT_TYPE_I 12 + ARRAY_LEN audio_data_format_type_i = 6
  /\ N.shiftl UAC_FORMAT_TYPE_II 12 = 0x1000
  /\ N.shiftl UAC_FORMAT_TYPE_II 12 + ARRAY_LEN audio_data_format_type_ii
     = 0x1003
  /\ N.shiftl UAC_FORMAT_TYPE_III 12 = 0x2000
  /\ N.shiftl UAC_FORMAT_TYPE_III 12 + ARRAY_LEN audio_data_format_type_iii
     = 0x2007.
Proof. repeat split. Qed.

(** The two renderers on the three boundary values. *)
Lemma wformattag_at_boundaries (indent : N) :
  GenericRange.desc_snowflake_dump_uac1_as_interface_wformattag 6 indent
    = OutOfBounds 6 6
  /\ GenericRange.desc_snowflake_dump_uac1_as_interface_wformattag
       0x1003 indent = OutOfBounds 3 3
  /\ GenericRange.desc_snowflake_dump_uac1_as_interface_wformattag
       0x2007 indent = OutOfBounds 7 7
  /\ LiteralRange.desc_snowflake_dump_uac1_as_interface_wformattag 6 indent
     = Done (" undefined" ++ nl)
  /\ LiteralRange.desc_snowflake_dump_uac1_as_interface_wformattag
       0x1003 indent = Done (" undefined" ++ nl)
  /\ LiteralRange.desc_snowflake_dump_uac1_as_interface_wformattag
       0x2007 indent = Done (" undefined" ++ nl).
Proof. repeat split. Qed.

(** Away from the three boundary values the two renderers take the same
    branch with the same subscript. *)
Lemma wformattag_agree_elsewhere (value indent : N) :
  value <> 6 -> value <> 0x1003 -> value <> 0x2007 ->
  GenericRange.desc_snowflake_dump_uac1_as_interface_wformattag value indent
  = LiteralRange.desc_snowflake_dump_uac1_as_interface_wformattag value indent.
Proof.
  intros H6 H1003 H2007.
  unfold GenericRange.desc_snowflake_dump_uac1_as_interface_wformattag,
         LiteralRange.desc_snowflake_dump_uac1_as_interface_wformattag.
  destruct generic_bounds as (-> & -> & -> & -> & ->).
  f_equal.
  destruct (N.leb_spec value 6), (N.leb_spec value 5); try lia;
    try reflexivity.
  destruct (N.leb_spec 0x1000 value); cbn [andb].
  - destruct (N.leb_spec value 0x1003), (N.leb_spec value 0x1002);
      try lia; try reflexivity.
    destruct (N.leb_spec 0x2000 value); cbn [andb]; [|reflexivity].
    destruct (N.leb_spec value 0x2007), (N.leb_spec value 0x2006);
      try lia; reflexivity.
  - destruct (N.leb_spec 0x2000 value); [lia|reflexivity].
Qed.

(** C2: the two definitions of the UAC1 wFormatTag renderer differ on some
    input: on 6, 0x1003 and 0x2007, each a type prefix plus the length of
    its format table, the definition with ARRAY_LEN bounds subscripts the
    table at its length while the definition with literal bounds prints
    undefined; on every other value the two print the same. *)
Theorem wformattag_definitions_diverge :
  (exists value indent,
      GenericRange.desc_snowflake_dump_uac1_as_interface_wformattag
        value indent
      <> LiteralRange.desc_snowflake_dump_uac1_as_interface_wformattag
           value indent)
  /\ (forall value indent,
         GenericRange.desc_snowflake_dump_uac1_as_interface_wformattag
           value indent
         = LiteralRange.desc_snowflake_dump_uac1_as_interface_wformattag
             value indent
         <-> value <> 6 /\ value <> 0x1003 /\ value <> 0x2007)
  /\ ARRAY_LEN audio_data_format_type_i = 6
  /\ 0x1000 + ARRAY_LEN audio_data_format_type_ii = 0x1003
  /\ 0x2000 + ARRAY_LEN audio_data_format_type_iii = 0x2007.
Proof.
  split; [|split; [|repeat split]].
  - exists 6, 0. destruct (wformattag_at_boundaries 0) as (-> & _ & _ & -> & _).
    discriminate.
  - intros value indent. split.
    + intros Heq.
      destruct (wformattag_at_boundaries indent)
        as (G1 & G2 & G3 & L1 & L2 & L3).
      repeat split; intros ->; rewrite ?G1, ?G2, ?G3, ?L1, ?L2, ?L3 in Heq;
        discriminate.
    + intros (H1 & H2 & H3). now apply wformattag_agree_elsewhere.
Qed.

(** The renderer with literal bounds stays inside its tables on every
    value. *)
Lemma literal_wformattag_in_bounds (value indent : N) :
  exists text,
    LiteralRange.desc_snowflake_dump_uac1_as_interface_wformattag value indent
    = Done text.
Proof.
  unfold LiteralRange.desc_snowflake_dump_uac1_as_interface_wformattag.
  destruct (N.leb_spec value 5) as [H5|H5].
  - assert (value = 0 \/ value = 1 \/ value = 2 \/ value = 3 \/ value = 4
            \/ value = 5) as Hv by lia.
    destruct Hv as [-> | [-> | [-> | [-> | [-> | ->]]]]];
      eexists; reflexivity.
  - destruct (N.leb_spec 0x1000 value) as [Hlo|Hlo];
      destruct (N.leb_spec value 0x1002) as [Hhi|Hhi]; cbn [andb].
    + assert (value = 0x1000 \/ value = 0x1001 \/ value = 0x1002)
        as Hv by lia.
      destruct Hv as [-> | [-> | ->]]; eexists; reflexivity.
    + destruct (N.leb_spec 0x2000 value) as [Hlo'|Hlo'];
        destruct (N.leb_spec value 0x2006) as [Hhi'|Hhi']; cbn [andb];
        try (eexists; reflexivity).
      assert (value = 0x2000 \/ value = 0x2001 \/ value = 0x2002
              \/ value = 0x2003 \/ value = 0x2004 \/ value = 0x2005
              \/ value = 0x2006) as Hv by lia.
      destruct Hv as [-> | [-> | [-> | [-> | [-> | [-> | ->]]]]]];
        eexists; reflexivity.
    + destruct (N.leb_spec 0x2000 value); [lia|]. eexists; reflexivity.
    + destruct (N.leb_spec 0x2000 value); [lia|]. eexists; reflexivity.
Qed.

(** C3: a 16-bit wFormatTag on which the renderer with ARRAY_LEN bounds
    leaves its table: for 6 it subscripts audio_data_format_type_i, of six
    entries, at 6; for 0x1003 the type II table, of three entries, at 3;
    for 0x2007 the type III table, of seven entries, at 7.  These three are
    the only values on which it does, and the renderer with literal bounds
    stays inside the tables on every value. *)
Theorem generic_wformattag_subscript_past_table :
  forall indent : N,
    6 < 2 ^ 16
    /\ GenericRange.desc_snowflake_dump_uac1_as_interface_wformattag 6 indent
       = OutOfBounds (length audio_data_format_type_i) 6
    /\ GenericRange.desc_snowflake_dump_uac1_as_interface_wformattag
         0x1003 indent
       = OutOfBounds (length audio_data_format_type_ii) 3
    /\ GenericRange.desc_snowflake_dump_uac1_as_interface_wformattag
         0x2007 indent
       = OutOfBounds (length audio_data_format_type_iii) 7
    /\ length audio_data_format_type_i = 6%nat
    /\ length audio_data_format_type_ii = 3%nat
    /\ length audio_data_format_type_iii = 7%nat
    /\ (forall value : N,
           (exists len i,
               GenericRange.desc_snowflake_dump_uac1_as_interface_wformattag
                 value indent = OutOfBounds len i)
           <-> value = 6 \/ value = 0x1003 \/ value = 0x2007)
    /\ (forall value : N,
           exists text,
             LiteralRange.desc_snowflake_dump_uac1_as_interface_wformattag
               value indent = Done text).
Proof.
  intros indent.
  repeat match goal with |- _ /\ _ => split end; try reflexivity.
  - intros value. split.
    + intros (len & i & Hoob).
      destruct (N.eq_dec value 6) as [|H1]; [now left|].
      destruct (N.eq_dec value 0x1003) as [|H2]; [now right; left|].
      destruct (N.eq_dec value 0x2007) as [|H3]; [now right; right|].
      exfalso.
      rewrite (wformattag_agree_elsewhere value indent H1 H2 H3) in Hoob.
      destruct (literal_wformattag_in_bounds value indent) as [text Ht].
      rewrite Ht in Hoob. discriminate Hoob.
    + intros [-> | [-> | ->]]; do 2 eexists; reflexivity.
  - intros value. apply literal_wformattag_in_bounds.
Qed.

(** ** The registry *)

(** Every exported array has a slot for each of the three protocols. *)
Lemma registry_slot (k : descriptor_kind) (p : uac_protocol) :
  nth_error (registry k) (protocol_index p) = Some (lookup k p).
Proof. destruct k, p; reflexivity. Qed.

(** C4: lookup finds no definition, and stays inside the exported array,
    for UAC3 with every descriptor kind and for UAC1 with Clock Source,
    Clock Selector, Clock Multiplier and Sample Rate Converter; a pair
    without a definition is UAC3, or UAC1 with one of those four kinds or
    with Effect Unit. *)
Theorem lookup_unsupported_pairs :
  (forall k, lookup k UAC3 = None)
  /\ lookup AC_CLOCK_SOURCE UAC1 = None
  /\ lookup AC_CLOCK_SELECTOR UAC1 = None
  /\ lookup AC_CLOCK_MULTIPLIER UAC1 = None
  /\ lookup AC_SAMPLE_RATE_CONVERTER UAC1 = None
  /\ (forall k p, exists slot,
         nth_error (registry k) (protocol_index p) = Some slot
         /\ lookup k p = slot)
  /\ (forall k p,
         lookup k p = None <->
         p = UAC3
         \/ (p = UAC1
             /\ (k = AC_CLOCK_SOURCE \/ k = AC_CLOCK_SELECTOR
                 \/ k = AC_CLOCK_MULTIPLIER \/ k = AC_SAMPLE_RATE_CONVERTER
                 \/ k = AC_EFFECT_UNIT))).
Proof.
  repeat match goal with |- _ /\ _ => split end; try reflexivity.
  - intros k. destruct k; reflexivity.
  - intros k p. exists (lookup k p). split; [apply registry_slot|reflexivity].
  - intros k p. split.
    + destruct k, p; cbn; intros H; try discriminate H; auto 10.
    + intros [-> | [-> [-> | [-> | [-> | [-> | ->]]]]]];
        try reflexivity; destruct k; reflexivity.
Qed.

(** C10: the Effect Unit array holds no definition in its UAC1 slot, so
    lookup of Effect Unit at UAC1 finds none, although Effect Unit is none
    of Clock Source, Clock Selector, Clock Multiplier and Sample Rate
    Converter. *)
Theorem effect_unit_uac1_unsupported :
  nth_error desc_audio_ac_effect_unit (protocol_index UAC1) = Some None
  /\ registry AC_EFFECT_UNIT = desc_audio_ac_effect_unit
  /\ lookup AC_EFFECT_UNIT UAC1 = None
  /\ lookup AC_EFFECT_UNIT UAC2 = Some desc_audio_2_ac_effect_unit
  /\ AC_EFFECT_UNIT <> AC_CLOCK_SOURCE
  /\ AC_EFFECT_UNIT <> AC_CLOCK_SELECTOR
  /\ AC_EFFECT_UNIT <> AC_CLOCK_MULTIPLIER
  /\ AC_EFFECT_UNIT <> AC_SAMPLE_RATE_CONVERTER.
Proof.
  repeat split; discriminate.
Qed.

(** ** Cross-field references of the definitions *)

Lemma In_all_definitions_checked (d : desc_def) :
  In d all_definitions ->
  refs_earlier d = true /\ NoDup (map field d).
Proof.
  intros Hin.
  pose proof all_definitions_checked as H.
  rewrite forallb_forall in H. specialize (H d Hin).
  apply andb_true_iff in H. destruct H as [Hr Hn].
  split; [assumption|now apply distinct_names_NoDup].
Qed.

Lemma NoDup_app_disjoint {A} (l1 l2 : list A) (a : A) :
  NoDup (l1 ++ l2) -> In a l1 -> ~ In a l2.
Proof.
  induction l1 as [|x l1 IH]; simpl; intros Hnd Hin; [contradiction|].
  inversion Hnd as [|? ? Hx Hnd']; subst.
  destruct Hin as [-> | Hin].
  - intros H2. apply Hx. apply in_or_app. now right.
  - now apply IH.
Qed.

(** C8: in every definition an exported array holds, a field named through
    size_field, length_field1 or length_field2 is a field listed strictly
    before the entry that names it, and no entry from that one onwards
    carries the name: there is neither a forward nor a self reference. *)
Theorem references_name_earlier_fields :
  forall d : desc_def,
    In d all_definitions ->
    forall (pre : list desc) (f : desc) (post : list desc) (r : string),
      d = (pre ++ f :: post)%list ->
      In r (references f) ->
      In r (map field pre) /\ ~ In r (map field (f :: post)).
Proof.
  intros d Hin pre f post r Hd Hr.
  destruct (In_all_definitions_checked d Hin) as [Hrefs Hnd].
  assert (In r (map field pre)) as Hpre.
  { pose proof (references_in_seen [] d Hrefs pre f post r Hd Hr) as H.
    rewrite app_nil_r in H. now apply in_rev. }
  split; [assumption|].
  subst d. rewrite map_app in Hnd.
  eapply NoDup_app_disjoint; eassumption.
Qed.

Lemma references_name_earlier_fields_witness :
  In "bControlSize"
     (map field [ D "bUnitID" 1 DESC_NUMBER; D "bSourceID" 1 DESC_CONSTANT;
                  D "bControlSize" 1 DESC_NUMBER ])
  /\ ~ In "bControlSize"
       (map field
          [ {| field := "bmaControls"; size := 0;
               size_field := Some "bControlSize";
               type := DESC_BMCONTROL_1;
               param := bmcontrol uac_feature_unit_bmcontrols;
               array_ := array_open |};
            D "iFeature" 1 DESC_STR_DESC_INDEX ]).
Proof.
  apply (references_name_earlier_fields desc_audio_1_ac_feature_unit).
  - unfold all_definitions. simpl.
    do 13 right. left. reflexivity.
  - reflexivity.
  - simpl. left. reflexivity.
Defined.

(** ** The UAC2 Clock Source descriptor *)

(** C1, as stated, fails: for bmAttributes = 0x03 the renderer prints the
    entry 3 of uac2_clk_src_bmattr, which is Internal programmable; the
    text Internal variable, entry 2 of the table, does not occur in what it
    prints. *)
Lemma uac2_clk_src_bmattr_0x03_is_not_internal_variable :
  exists text : string,
    desc_snowflake_dump_uac2_clk_src_bmattr 0x03 0 = Done text
    /\ text = " Internal programmable clock " ++ nl
    /\ String.index 0 "Internal variable" text = None
    /\ array_get uac2_clk_src_bmattr (N.land 0x03 0x3)
       = Done "Internal programmable"
    /\ array_get uac2_clk_src_bmattr 2 = Done "Internal variable".
Proof.
  eexists. split; [reflexivity|]. repeat split.
Qed.

(** C1, amended: decoding the UAC2 Clock Source bytes 01 03 01 00 00
    renders bmAttributes as Internal programmable clock (bits 0-1 = 0b11
    select entry 3 of the table; bit 2 is clear, so no SOF qualifier
    follows) and renders bmControls with Clock Frequency present, read-only
    (first two-bit group = 0b01), and Clock Validity absent. *)
Theorem uac2_clock_source_scenario :
  forall fixed_count indent : N,
    desc_snowflake_dump_uac2_clk_src_bmattr 0x03 indent
      = Done (" Internal programmable clock " ++ nl)
    /\ N.land 0x03 0x4 = 0
    /\ control_bits_2 uac2_clock_source_bmcontrols 0x01
       = [("Clock Frequency", ReadOnly)]
    /\ decode fixed_count indent desc_audio_2_ac_clock_source
         [x01; x03; x01; x00; x00]%byte
       = Ok ([ {| df_name := "bClockID"; df_width := 1; df_count := 1;
                  df_consumed := 1; df_values := [(1, R_constant 1)] |};
               {| df_name := "bmAttributes"; df_width := 1; df_count := 1;
                  df_consumed := 1;
                  df_values :=
                    [(3, R_custom
                           (Done (" Internal programmable clock " ++ nl)))] |};
               {| df_name := "bmControls"; df_width := 1; df_count := 1;
                  df_consumed := 1;
                  df_values :=
                    [(1, R_control_bits_2 [("Clock Frequency", ReadOnly)])] |};
               {| df_name := "bAssocTerminal"; df_width := 1; df_count := 1;
                  df_consumed := 1; df_values := [(0, R_constant 0)] |};
               {| df_name := "iClockSource"; df_width := 1; df_count := 1;
                  df_consumed := 1; df_values := [(0, R_string_index 0)] |} ],
             []).
Proof.
  intros fixed_count indent. repeat split.
Qed.

(** ** The UAC1 Feature Unit descriptor *)

(** C6: in a UAC1 Feature Unit descriptor whose bControlSize byte is 2 and
    whose bmaControls bytes are 03 00, with a repetition count of 1,
    bmaControls takes its width 2 from the value decoded for bControlSize,
    consumes exactly 2 bytes, and renders Mute and Volume as present. *)
Theorem uac1_feature_unit_scenario :
  forall (indent : N) (bUnitID bSourceID iFeature : byte) (rest : list byte),
  exists out : DecodedRecord,
    decode 1 indent desc_audio_1_ac_feature_unit
      ([bUnitID; bSourceID; x02; x03; x00; iFeature]%byte ++ rest)%list
    = Ok (out, rest)
    /\ find_field out "bControlSize"
       = Some {| df_name := "bControlSize"; df_width := 1; df_count := 1;
                 df_consumed := 1; df_values := [(2, R_number 2)] |}
    /\ find_field out "bmaControls"
       = Some {| df_name := "bmaControls"; df_width := 2; df_count := 1;
                 df_consumed := 2;
                 df_values := [(0x0003, R_control_bits_1 ["Mute"; "Volume"])] |}
    /\ nth_error desc_audio_1_ac_feature_unit 3
       = Some {| field := "bmaControls"; size := 0;
                 size_field := Some "bControlSize";
                 type := DESC_BMCONTROL_1;
                 param := bmcontrol uac_feature_unit_bmcontrols;
                 array_ := array_open |}.
Proof.
  intros indent bUnitID bSourceID iFeature rest.
  eexists. split; [reflexivity|].
  repeat split.
Qed.

(** ** The field decoder and the buffer *)

Lemma read_le_inv (w : nat) (buf : list byte) (v : N) (rest : list byte) :
  read_le w buf = Ok (v, rest) ->
  exists bytes,
    buf = (bytes ++ rest)%list /\ length bytes = w /\ v = le_value bytes.
Proof.
  unfold read_le. destruct (Nat.ltb_spec (length buf) w) as [Hlt|Hge];
    [discriminate|].
  intros H. injection H as <- <-.
  exists (firstn w buf). split; [|split].
  - symmetry. apply firstn_skipn.
  - apply firstn_length_le. exact Hge.
  - reflexivity.
Qed.

Lemma firstn_length_app {A} (l r : list A) :
  firstn (length l) (l ++ r) = l.
Proof.
  induction l as [|a l IH]; simpl; [reflexivity|]. now rewrite IH.
Qed.

Lemma skipn_length_app {A} (l r : list A) :
  skipn (length l) (l ++ r) = r.
Proof.
  induction l as [|a l IH]; simpl; [reflexivity|]. exact IH.
Qed.

Lemma read_le_app (bytes rest : list byte) :
  read_le (length bytes) (bytes ++ rest)
  = Ok (le_value bytes, rest).
Proof.
  unfold read_le. rewrite length_app.
  destruct (Nat.ltb_spec (length bytes + length rest) (length bytes))
    as [Hlt|Hge]; [lia|].
  now rewrite firstn_length_app, skipn_length_app.
Qed.

Lemma read_le_short (w : nat) (buf : list byte) :
  (length buf < w)%nat -> read_le w buf = Error BufferUnderrun.
Proof.
  intros H. unfold read_le.
  destruct (Nat.ltb_spec (length buf) w); [reflexivity|lia].
Qed.

Section DecoderFacts.

Variable fixed_count : N.
Variable indent : N.

(** What a successful read of [n] repetitions says about the buffer: the
    bytes read are a prefix of it, nothing after them matters, and no
    proper prefix of them is enough. *)
Lemma read_entries_inv (f : desc) (w n : nat) :
  forall buf vs used rest,
    read_entries indent f w n buf = Ok (vs, used, rest) ->
    exists bytes,
      buf = (bytes ++ rest)%list
      /\ length bytes = used
      /\ used = (n * w)%nat
      /\ length vs = n
      /\ (forall rest',
             read_entries indent f w n (bytes ++ rest') = Ok (vs, used, rest'))
      /\ (forall p q,
             bytes = (p ++ q)%list -> q <> [] ->
             read_entries indent f w n p = Error BufferUnderrun).
Proof.
  induction n as [|n IH]; intros buf vs used rest H.
  - cbn in H. injection H as <- <- <-. exists []. repeat split.
    intros p q Hpq Hq. destruct p; [|discriminate].
    destruct q; [contradiction|discriminate].
  - cbn [read_entries] in H.
    destruct (read_le w buf) as [[v b1]|e] eqn:E1; cbn in H; [|discriminate].
    destruct (read_entries indent f w n b1) as [[[vs1 u1] b2]|e] eqn:E2;
      cbn in H; [|discriminate].
    injection H as <- <- <-.
    apply read_le_inv in E1. destruct E1 as (h & -> & Hh & ->). subst w.
    destruct (IH _ _ _ _ E2) as (t & -> & Ht & Hu & Hvs & Hext & Hpre).
    exists (h ++ t)%list. repeat split.
    + now rewrite app_assoc.
    + rewrite length_app. lia.
    + simpl. lia.
    + simpl. now rewrite Hvs.
    + intros rest'. cbn [read_entries]. rewrite <- app_assoc.
      rewrite read_le_app. cbn [rbind]. rewrite Hext. reflexivity.
    + intros p q Hpq Hq. cbn [read_entries].
      symmetry in Hpq. apply app_eq_app in Hpq.
      destruct Hpq as [m [[-> ->] | [-> ->]]].
      * (* the prefix reaches into the later repetitions *)
        rewrite read_le_app. cbn [rbind].
        rewrite (Hpre m q eq_refl Hq). reflexivity.
      * (* the prefix ends inside the first repetition *)
        destruct m as [|x m].
        -- rewrite app_nil_r in *. rewrite <- (app_nil_r p) at 2.
           rewrite read_le_app. cbn [rbind].
           rewrite (Hpre [] t eq_refl Hq). reflexivity.
        -- rewrite read_le_short; [reflexivity|].
           rewrite length_app. simpl. lia.
Qed.

Lemma decode_field_inv (f : desc) (ctx : context) :
  forall buf df ctx' rest,
    decode_field fixed_count indent f ctx buf = Ok (df, ctx', rest) ->
    exists bytes,
      buf = (bytes ++ rest)%list
      /\ length bytes = df_consumed df
      /\ (forall rest',
             decode_field fixed_count indent f ctx (bytes ++ rest')
             = Ok (df, ctx', rest'))
      /\ (forall p q,
             bytes = (p ++ q)%list -> q <> [] ->
             decode_field fixed_count indent f ctx p = Error BufferUnderrun).
Proof.
  intros buf df ctx' rest H. unfold decode_field in *.
  destruct (resolve_width f ctx) as [w|e]; cbn in *; [|discriminate].
  destruct (resolve_count fixed_count f ctx) as [c|e]; cbn in *;
    [|discriminate].
  destruct (read_entries indent f (N.to_nat w) (N.to_nat c) buf)
    as [[[vs used] b]|e] eqn:E; cbn in H; [|discriminate].
  injection H as <- <- <-.
  destruct (read_entries_inv _ _ _ _ _ _ _ E)
    as (bytes & -> & Hlen & _ & _ & Hext & Hpre).
  exists bytes. repeat split.
  - exact Hlen.
  - intros rest'. rewrite Hext. reflexivity.
  - intros p q Hpq Hq. rewrite (Hpre p q Hpq Hq). reflexivity.
Qed.

Lemma decode_fields_inv (d : desc_def) :
  forall ctx buf out ctx' rest,
    decode_fields fixed_count indent d ctx buf = Ok (out, ctx', rest) ->
    exists bytes,
      buf = (bytes ++ rest)%list
      /\ length bytes = list_sum (map df_consumed out)
      /\ (forall rest',
             decode_fields fixed_count indent d ctx (bytes ++ rest')
             = Ok (out, ctx', rest'))
      /\ (forall p q,
             bytes = (p ++ q)%list -> q <> [] ->
             decode_fields fixed_count indent d ctx p
             = Error BufferUnderrun).
Proof.
  induction d as [|f d IH]; intros ctx buf out ctx' rest H.
  - cbn in H. injection H as <- <- <-. exists []. repeat split.
    intros p q Hpq Hq. destruct p; [|discriminate].
    destruct q; [contradiction|discriminate].
  - cbn [decode_fields] in H.
    destruct (decode_field fixed_count indent f ctx buf)
      as [[[df c1] b1]|e] eqn:E1; cbn in H; [|discriminate].
    destruct (decode_fields fixed_count indent d c1 b1)
      as [[[dfs c2] b2]|e] eqn:E2; cbn in H; [|discriminate].
    injection H as <- <- <-.
    destruct (decode_field_inv _ _ _ _ _ _ E1)
      as (h & -> & Hh & Hext1 & Hpre1).
    destruct (IH _ _ _ _ _ E2) as (t & -> & Ht & Hext2 & Hpre2).
    exists (h ++ t)%list. repeat split.
    + now rewrite app_assoc.
    + rewrite length_app. simpl. lia.
    + intros rest'. cbn [decode_fields]. rewrite <- app_assoc, Hext1. cbn.
      rewrite Hext2. reflexivity.
    + intros p q Hpq Hq. cbn [decode_fields].
      symmetry in Hpq. apply app_eq_app in Hpq.
      destruct Hpq as [m [[-> ->] | [-> ->]]].
      * rewrite Hext1. cbn. rewrite (Hpre2 m q eq_refl Hq). reflexivity.
      * destruct m as [|x m].
        -- rewrite app_nil_r in *. rewrite <- (app_nil_r p) at 1.
           rewrite Hext1. cbn [rbind].
           rewrite (Hpre2 [] t eq_refl Hq). reflexivity.
        -- rewrite (Hpre1 p (x :: m) eq_refl); [reflexivity|discriminate].
Qed.

(** What a successful decode of one field records. *)
Lemma decode_field_facts (f : desc) (ctx : context) :
  forall buf df ctx' rest,
    decode_field fixed_count indent f ctx buf = Ok (df, ctx', rest) ->
    exists w c vs,
      df = {| df_name := field f; df_width := w; df_count := c;
              df_consumed := (N.to_nat c * N.to_nat w)%nat;
              df_values := vs |}
      /\ resolve_width f ctx = Ok w
      /\ resolve_count fixed_count f ctx = Ok c
      /\ length vs = N.to_nat c
      /\ ctx' = (ctx ++ map (fun e => (field f, fst e)) vs)%list.
Proof.
  intros buf df ctx' rest H. unfold decode_field in H.
  destruct (resolve_width f ctx) as [w|e]; cbn in H; [|discriminate].
  destruct (resolve_count fixed_count f ctx) as [c|e]; cbn in H;
    [|discriminate].
  destruct (read_entries indent f (N.to_nat w) (N.to_nat c) buf)
    as [[[vs used] b]|e] eqn:E; cbn in H; [|discriminate].
  injection H as <- <- <-.
  destruct (read_entries_inv _ _ _ _ _ _ _ E)
    as (bytes & _ & _ & Hused & Hvs & _ & _).
  exists w, c, vs. subst used. repeat split. exact Hvs.
Qed.

End DecoderFacts.

Lemma ctx_lookup_app (a b : context) (name : string) :
  ctx_lookup (a ++ b)%list name
  = match ctx_lookup a name with
    | Some v => Some v
    | None => ctx_lookup b name
    end.
Proof.
  induction a as [|[n v] a IH]; simpl; [reflexivity|].
  destruct (String.eqb n name); [reflexivity|exact IH].
Qed.

Lemma ctx_lookup_other (n name : string) (vs : list (N * rendered)) :
  String.eqb n name = false ->
  ctx_lookup (map (fun e => (n, fst e)) vs) name = None.
Proof.
  intros Hn. induction vs as [|e vs IH]; simpl; [reflexivity|].
  now rewrite Hn.
Qed.

Section DecoderErrors.

Variable fixed_count : N.
Variable indent : N.

Lemma read_entries_error (f : desc) (w n : nat) :
  forall buf e,
    read_entries indent f w n buf = Error e -> e = BufferUnderrun.
Proof.
  induction n as [|n IH]; intros buf e H; cbn [read_entries] in H;
    [discriminate|].
  unfold read_le in H.
  destruct (length buf <? w)%nat; cbn in H; [now injection H as <-|].
  destruct (read_entries indent f w n (skipn w buf))
    as [[[vs u] b]|e'] eqn:E; cbn in H; [discriminate|].
  injection H as <-. eapply IH. eassumption.
Qed.

Lemma on_record_app (seen : list string) (ctx more : context) :
  on_record seen ctx -> on_record seen (ctx ++ more)%list.
Proof.
  intros H name Hin. rewrite ctx_lookup_app.
  specialize (H name Hin). destruct (ctx_lookup ctx name); congruence.
Qed.

Lemma decode_field_error (f : desc) (seen : list string) (ctx : context) :
  forallb (fun r => mem_string r seen) (references f) = true ->
  on_record seen ctx ->
  forall buf e,
    decode_field fixed_count indent f ctx buf = Error e ->
    e = BufferUnderrun.
Proof.
  intros Hrefs Hctx buf e H.
  rewrite forallb_forall in Hrefs.
  assert (forall r, In r (references f) -> ctx_lookup ctx r <> None) as Hr.
  { intros r Hin. apply Hctx. apply mem_string_In. now apply Hrefs. }
  unfold decode_field, resolve_width, resolve_count in H.
  unfold references in Hr.
  destruct (size_field f) as [sf|]; cbn [opt_list app] in Hr.
  - pose proof (Hr sf (or_introl eq_refl)) as Hsf.
    destruct (ctx_lookup ctx sf) as [w|]; [|congruence]. cbn [rbind] in H.
    destruct (array (array_ f)).
    + destruct (length_field1 (array_ f)) as [f1|]; cbn [opt_list app] in Hr.
      * pose proof (Hr f1 (or_intror (or_introl eq_refl))) as H1.
        destruct (ctx_lookup ctx f1) as [v1|]; [|congruence].
        destruct (length_field2 (array_ f)) as [f2|]; cbn [opt_list app] in Hr.
        -- pose proof (Hr f2 (or_intror (or_intror (or_introl eq_refl))))
             as H2.
           destruct (ctx_lookup ctx f2) as [v2|]; [|congruence].
           cbn [rbind] in H.
           destruct (read_entries indent f (N.to_nat w) (N.to_nat (v1 * v2))
                       buf) as [[[vs u] b]|e'] eqn:E; cbn in H;
             [discriminate|].
           injection H as <-. eapply read_entries_error. eassumption.
        -- cbn [rbind] in H.
           destruct (read_entries indent f (N.to_nat w) (N.to_nat v1) buf)
             as [[[vs u] b]|e'] eqn:E; cbn in H; [discriminate|].
           injection H as <-. eapply read_entries_error. eassumption.
      * cbn [rbind] in H.
        destruct (read_entries indent f (N.to_nat w) (N.to_nat fixed_count)
                    buf) as [[[vs u] b]|e'] eqn:E; cbn in H; [discriminate|].
        injection H as <-. eapply read_entries_error. eassumption.
    + cbn [rbind] in H.
      destruct (read_entries indent f (N.to_nat w) (N.to_nat 1) buf)
        as [[[vs u] b]|e'] eqn:E; cbn in H; [discriminate|].
      injection H as <-. eapply read_entries_error. eassumption.
  - cbn [rbind] in H.
    destruct (array (array_ f)).
    + destruct (length_field1 (array_ f)) as [f1|]; cbn [opt_list app] in Hr.
      * pose proof (Hr f1 (or_introl eq_refl)) as H1.
        destruct (ctx_lookup ctx f1) as [v1|]; [|congruence].
        destruct (length_field2 (array_ f)) as [f2|]; cbn [opt_list app] in Hr.
        -- pose proof (Hr f2 (or_intror (or_introl eq_refl))) as H2.
           destruct (ctx_lookup ctx f2) as [v2|]; [|congruence].
           cbn [rbind] in H.
           destruct (read_entries indent f (N.to_nat (size f))
                       (N.to_nat (v1 * v2)) buf)
             as [[[vs u] b]|e'] eqn:E; cbn in H; [discriminate|].
           injection H as <-. eapply read_entries_error. eassumption.
        -- cbn [rbind] in H.
           destruct (read_entries indent f (N.to_nat (size f))
                       (N.to_nat v1) buf)
             as [[[vs u] b]|e'] eqn:E; cbn in H; [discriminate|].
           injection H as <-. eapply read_entries_error. eassumption.
      * cbn [rbind] in H.
        destruct (read_entries indent f (N.to_nat (size f))
                    (N.to_nat fixed_count) buf)
          as [[[vs u] b]|e'] eqn:E; cbn in H; [discriminate|].
        injection H as <-. eapply read_entries_error. eassumption.
    + cbn [rbind] in H.
      destruct (read_entries indent f (N.to_nat (size f)) (N.to_nat 1) buf)
        as [[[vs u] b]|e'] eqn:E; cbn in H; [discriminate|].
      injection H as <-. eapply read_entries_error. eassumption.
Qed.

(** A definition whose references name earlier fields that are not arrays
    decodes or runs out of bytes; it meets no other error. *)
Lemma decode_fields_error (d : desc_def) :
  forall seen ctx buf e,
    refs_scalar_from seen d = true ->
    on_record seen ctx ->
    decode_fields fixed_count indent d ctx buf = Error e ->
    e = BufferUnderrun.
Proof.
  induction d as [|f d IH]; intros seen ctx buf e Hok Hctx H;
    cbn [decode_fields] in H; [discriminate|].
  cbn [refs_scalar_from] in Hok. apply andb_true_iff in Hok.
  destruct Hok as [Hf Hd].
  destruct (decode_field fixed_count indent f ctx buf)
    as [[[df c1] b1]|e1] eqn:E1; cbn [rbind] in H.
  - destruct (decode_fields fixed_count indent d c1 b1)
      as [[[dfs c2] b2]|e2] eqn:E2; cbn in H; [discriminate|].
    injection H as <-.
    apply decode_field_facts in E1.
    destruct E1 as (w & c & vs & -> & Hw & Hc & Hlen & ->).
    eapply IH; [exact Hd| |exact E2].
    destruct (array (array_ f)) eqn:Harr.
    + now apply on_record_app.
    + (* a scalar records its value under its own name *)
      unfold resolve_count in Hc. rewrite Harr in Hc. injection Hc as <-.
      destruct vs as [|[v r] [|? ?]]; try discriminate Hlen.
      intros name [<- | Hin].
      * rewrite ctx_lookup_app. destruct (ctx_lookup ctx (field f));
          [congruence|].
        cbn. rewrite String.eqb_refl. congruence.
      * exact (on_record_app seen ctx _ Hctx name Hin).
  - injection H as <-. eapply decode_field_error; eassumption.
Qed.

End DecoderErrors.

(** C9: when a decode of a definition succeeds on a buffer and consumes
    the bytes [bytes], every buffer that stops short of them (a proper
    prefix of [bytes]) makes the decode fail with BufferUnderrun, an error
    that carries no decoded record; the decode reads nothing after the
    bytes it consumes, since its result is the same whatever follows them,
    and the bytes consumed are those the decoded fields account for.  On
    the definitions of the exported arrays BufferUnderrun is the only way
    a decode fails. *)
Theorem decode_short_buffer_underrun :
  forall (fixed_count indent : N) (d : desc_def),
    (forall (bytes rest : list byte) (out : DecodedRecord),
        decode fixed_count indent d (bytes ++ rest) = Ok (out, rest) ->
        (forall short more : list byte,
            bytes = (short ++ more)%list -> more <> [] ->
            decode fixed_count indent d short = Error BufferUnderrun)
        /\ (forall rest' : list byte,
               decode fixed_count indent d (bytes ++ rest') = Ok (out, rest'))
        /\ length bytes = list_sum (map df_consumed out))
    /\ (In d all_definitions ->
        forall (buf : list byte) (e : DecodeError),
          decode fixed_count indent d buf = Error e -> e = BufferUnderrun).
Proof.
  intros fixed_count indent d. split.
  - intros bytes rest out H. unfold decode in *.
    destruct (decode_fields fixed_count indent d [] (bytes ++ rest))
      as [[[r c] b]|e] eqn:E; cbn in H; [|discriminate].
    injection H as <- <-.
    destruct (decode_fields_inv _ _ _ _ _ _ _ _ E)
      as (used & Hbuf & Hlen & Hext & Hpre).
    apply app_inv_tail in Hbuf. subst used.
    repeat split.
    + intros short more Hsm Hmore. rewrite (Hpre short more Hsm Hmore).
      reflexivity.
    + intros rest'. rewrite Hext. reflexivity.
    + exact Hlen.
  - intros Hin buf e H. unfold decode in H.
    destruct (decode_fields fixed_count indent d [] buf)
      as [[[r c] b]|e'] eqn:E; cbn in H; [discriminate|].
    injection H as <-.
    pose proof all_definitions_refs_scalar as Hall.
    rewrite forallb_forall in Hall.
    eapply decode_fields_error; [apply Hall; exact Hin| |exact E].
    intros name [].
Qed.

Lemma decode_short_buffer_underrun_witness :
  decode 1 0 desc_audio_2_ac_clock_source [x01; x03]%byte
  = Error BufferUnderrun.
Proof.
  apply (proj1 (proj1 (decode_short_buffer_underrun
                         1 0 desc_audio_2_ac_clock_source)
                      [x01; x03; x01; x00; x00]%byte []
                      (match decode 1 0 desc_audio_2_ac_clock_source
                               [x01; x03; x01; x00; x00]%byte with
                       | Ok (out, _) => out
                       | Error _ => []
                       end)
                      eq_refl)
               [x01; x03]%byte [x01; x00; x00]%byte eq_refl).
  discriminate.
Defined.

(** ** The UAC2 Mixer Unit descriptor *)

(** One field of a walk over a definition: split the step off and name
    the width, the count and the values it recorded. *)
Ltac walk_field E w c vs Hw Hc Hl :=
  match type of E with
  | context [decode_field ?fc ?ind ?f ?ctx ?buf] =>
      let F := fresh "F" in
      let df := fresh "df" in
      let cx := fresh "cx" in
      let bf := fresh "bf" in
      let er := fresh "er" in
      destruct (decode_field fc ind f ctx buf) as [[[df cx] bf]|er] eqn:F;
      cbn [rbind] in E; [|discriminate E];
      apply decode_field_facts in F;
      destruct F as (w & c & vs & -> & Hw & Hc & Hl & ->);
      unfold resolve_width in Hw; unfold resolve_count in Hc;
      cbn [D DA DP DPA field size size_field array_ array bits length_field1
           length_field2 not_array array_open array_len1 array_bits] in *
  end.

(** A field that is one repetition of a literal width. *)
Ltac walk_scalar E v :=
  let w := fresh "width" in
  let c := fresh "count" in
  let vs := fresh "values" in
  let Hw := fresh "Hw" in
  let Hc := fresh "Hc" in
  let Hl := fresh "Hl" in
  let r := fresh "r" in
  walk_field E w c vs Hw Hc Hl;
  injection Hw as <-; injection Hc as <-;
  destruct vs as [|[v r] [|? ?]]; try discriminate Hl; clear Hl;
  cbn [map fst app] in *.

(** C5: in every successful decode of a UAC2 Mixer Unit descriptor in which
    bNrInPins decodes to 2 and bNrChannels decodes to 3, the bmMixerControls
    array (bits mode, length_field1 = bNrInPins, length_field2 =
    bNrChannels, one byte wide) has repetition count 6 and consumes exactly
    6 bytes, whatever the other bytes of the descriptor are. *)
Theorem uac2_mixer_unit_controls_count :
  forall (fixed_count indent : N) (buf rest : list byte) (out : DecodedRecord),
    decode fixed_count indent desc_audio_2_ac_mixer_unit buf = Ok (out, rest) ->
    field_value out "bNrInPins" = Some 2 ->
    field_value out "bNrChannels" = Some 3 ->
    exists controls : decoded_field,
      find_field out "bmMixerControls" = Some controls
      /\ df_width controls = 1
      /\ df_count controls = 6
      /\ df_consumed controls = 6%nat
      /\ length (df_values controls) = 6%nat
      /\ nth_error desc_audio_2_ac_mixer_unit 6
         = Some (DA "bmMixerControls" 1 DESC_BITMAP
                    (array_bits "bNrInPins" "bNrChannels")).
Proof.
  intros fixed_count indent buf rest out H Hpins Hchannels.
  unfold decode in H.
  destruct (decode_fields fixed_count indent desc_audio_2_ac_mixer_unit
              [] buf) as [[[r c] b]|e] eqn:E; cbn in H; [|discriminate].
  injection H as <- <-.
  cbn [decode_fields desc_audio_2_ac_mixer_unit] in E.
  walk_scalar E unit_id.
  walk_scalar E pins.
  walk_field E w2 c2 vs2 Hw2 Hc2 Hl2.
  walk_scalar E channels.
  walk_scalar E config.
  walk_scalar E names.
  walk_field E w6 c6 vs6 Hw6 Hc6 Hl6.
  walk_scalar E controls.
  walk_scalar E mixer.
  injection E as <- _ _.
  (* the two decoded lengths *)
  cbn in Hpins, Hchannels.
  injection Hpins as ->. injection Hchannels as ->.
  (* the count resolved for bmMixerControls *)
  injection Hw6 as <-.
  change (("bUnitID", unit_id) :: ("bNrInPins", 2) :: ?t)
    with ([("bUnitID", unit_id); ("bNrInPins", 2)] ++ t)%list in Hc6.
  rewrite !ctx_lookup_app in Hc6.
  rewrite (ctx_lookup_other "baSourceID" "bNrChannels" vs2 eq_refl) in Hc6.
  cbn in Hc6. injection Hc6 as <-.
  eexists. split; [reflexivity|].
  cbn [df_width df_count df_consumed df_values].
  repeat split. exact Hl6.
Qed.

Lemma uac2_mixer_unit_controls_count_witness :
  exists controls : decoded_field,
    find_field
      (match decode 1 0 desc_audio_2_ac_mixer_unit
               [x07; x02; x0a; x0b; x03; x00; x00; x00; x00; x00;
                x01; x02; x03; x04; x05; x06; x00; x09]%byte with
       | Ok (out, _) => out
       | Error _ => []
       end) "bmMixerControls" = Some controls
    /\ df_width controls = 1
    /\ df_count controls = 6
    /\ df_consumed controls = 6%nat
    /\ length (df_values controls) = 6%nat
    /\ nth_error desc_audio_2_ac_mixer_unit 6
       = Some (DA "bmMixerControls" 1 DESC_BITMAP
                  (array_bits "bNrInPins" "bNrChannels")).
Proof.
  apply (uac2_mixer_unit_controls_count 1 0
           [x07; x02; x0a; x0b; x03; x00; x00; x00; x00; x00;
            x01; x02; x03; x04; x05; x06; x00; x09]%byte []);
    reflexivity.
Defined.

(** ** The custom renderers on every value *)

Lemma land_pow2 (v n : N) :
  N.land v (2 ^ n) = if N.testbit v n then 2 ^ n else 0.
Proof.
  apply N.bits_inj. intros m.
  rewrite N.land_spec, N.pow2_bits_eqb.
  destruct (N.eqb_spec n m) as [->|Hnm].
  - destruct (N.testbit v m) eqn:Hv; cbn [andb].
    + now rewrite N.pow2_bits_eqb, N.eqb_refl.
    + now rewrite N.bits_0.
  - rewrite andb_false_r.
    destruct (N.testbit v n).
    + rewrite N.pow2_bits_eqb. symmetry. now apply N.eqb_neq.
    + now rewrite N.bits_0.
Qed.

Lemma land_pow2_eqb (v n : N) :
  (N.land v (2 ^ n) =? 0) = negb (N.testbit v n).
Proof.
  rewrite land_pow2. destruct (N.testbit v n); cbn [negb].
  - apply N.eqb_neq. apply N.pow_nonzero. discriminate.
  - reflexivity.
Qed.

Lemma land_shiftr_1_eqb (v i : N) :
  (N.land (N.shiftr v i) 0x1 =? 0) = negb (N.testbit v i).
Proof.
  change 0x1 with (2 ^ 0). rewrite land_pow2_eqb.
  now rewrite N.shiftr_spec', N.add_0_l.
Qed.

(** What the clock source renderer prints, in terms of the bits of the
    value. *)
Lemma uac2_clk_src_bmattr_form (value indent : N) :
  exists kind : string,
    nth_error uac2_clk_src_bmattr (N.to_nat (value mod 4))
    = Some (Some kind)
    /\ desc_snowflake_dump_uac2_clk_src_bmattr value indent
       = Done (" " ++ kind ++ " clock "
               ++ (if N.testbit value 2 then "(synchronized to SOF)"
                   else EmptyString)
               ++ nl).
Proof.
  unfold desc_snowflake_dump_uac2_clk_src_bmattr.
  change 0x3 with (N.ones 2). rewrite N.land_ones.
  change 0x4 with (2 ^ 2). rewrite land_pow2_eqb.
  change (2 ^ 2) with 4.
  assert (value mod 4 < 4) as Hlt by (apply N.mod_lt; discriminate).
  generalize dependent (value mod 4). intros k Hlt.
  assert (k = 0 \/ k = 1 \/ k = 2 \/ k = 3) as Hk by lia.
  destruct (N.testbit value 2);
    destruct Hk as [-> | [-> | [-> | ->]]];
    eexists; split; reflexivity.
Qed.

(** X1: the UAC2 clock source bmAttributes renderer stays inside its two
    tables on every value: it prints the clock type named by the low two
    bits of the value, and the SOF qualifier exactly when bit 2 is set;
    nothing above bit 2, and not the indent, changes what it prints. *)
Theorem uac2_clk_src_bmattr_every_value :
  forall value indent : N,
    (exists kind : string,
        nth_error uac2_clk_src_bmattr (N.to_nat (value mod 4))
        = Some (Some kind)
        /\ desc_snowflake_dump_uac2_clk_src_bmattr value indent
           = Done (" " ++ kind ++ " clock "
                   ++ (if N.testbit value 2 then "(synchronized to SOF)"
                       else EmptyString)
                   ++ nl))
    /\ desc_snowflake_dump_uac2_clk_src_bmattr value indent
       = desc_snowflake_dump_uac2_clk_src_bmattr (value mod 8) 0.
Proof.
  intros value indent.
  split; [apply uac2_clk_src_bmattr_form|].
  destruct (uac2_clk_src_bmattr_form value indent) as (k1 & Hk1 & ->).
  destruct (uac2_clk_src_bmattr_form (value mod 8) 0) as (k2 & Hk2 & ->).
  assert ((value mod 8) mod 4 = value mod 4) as Hmod.
  { change 8 with (4 * 2). rewrite N.Div0.mod_mul_r.
    rewrite N.mul_comm, N.Div0.mod_add. apply N.Div0.mod_mod. }
  rewrite Hmod in Hk2. rewrite Hk1 in Hk2. injection Hk2 as <-.
  change 8 with (2 ^ 3).
  rewrite (N.mod_pow2_bits_low value 3 2) by reflexivity.
  reflexivity.
Qed.

(** What the bmFormats renderer prints, in terms of the bits of the
    value. *)
Lemma uac2_as_interface_bmformats_form (value indent : N) :
  desc_snowflake_dump_uac2_as_interface_bmformats value indent
  = Done (nl ++ fold_right
                  (fun bit_name rest =>
                     (if N.testbit value (fst bit_name)
                      then spaces (N.to_nat ((indent * 2) mod 2 ^ 32))
                           ++ snd bit_name ++ nl
                      else EmptyString) ++ rest)
                  EmptyString
                  [(0, "PCM"); (1, "PCM8"); (2, "IEEE_FLOAT"); (3, "ALAW");
                   (4, "MULAW")]).
Proof.
  unfold desc_snowflake_dump_uac2_as_interface_bmformats.
  cbn [bmformats_loop N.add Pos.add Pos.succ].
  rewrite !land_shiftr_1_eqb.
  cbn [fold_right fst snd].
  destruct (N.testbit value 0), (N.testbit value 1), (N.testbit value 2),
    (N.testbit value 3), (N.testbit value 4); reflexivity.
Qed.



(** X3: the wFormatTag renderer with literal bounds prints undefined
    exactly for the values outside the three code ranges 0 to 5, 0x1000 to
    0x1002 and 0x2000 to 0x2006: no format name is lost to the fallback
    and no value outside the ranges gets a name. *)
Theorem literal_wformattag_undefined_iff :
  forall value indent : N,
    LiteralRange.desc_snowflake_dump_uac1_as_interface_wformattag value indent
    = Done (" undefined" ++ nl)
    <-> 5 < value
        /\ (value < 0x1000 \/ 0x1002 < value)
        /\ (value < 0x2000 \/ 0x2006 < value).
Proof.
  intros value indent.
  unfold LiteralRange.desc_snowflake_dump_uac1_as_interface_wformattag.
  destruct (N.leb_spec value 5) as [H5|H5].
  - assert (value = 0 \/ value = 1 \/ value = 2 \/ value = 3 \/ value = 4
            \/ value = 5) as Hv by lia.
    split; [|lia].
    destruct Hv as [-> | [-> | [-> | [-> | [-> | ->]]]]];
      intros H; vm_compute in H; discriminate H.
  - destruct (N.leb_spec 0x1000 value) as [Hlo|Hlo];
      destruct (N.leb_spec value 0x1002) as [Hhi|Hhi]; cbn [andb].
    + assert (value = 0x1000 \/ value = 0x1001 \/ value = 0x1002)
        as Hv by lia.
      split; [|lia].
      destruct Hv as [-> | [-> | ->]];
        intros H; vm_compute in H; discriminate H.
    + destruct (N.leb_spec 0x2000 value) as [Hlo'|Hlo'];
        destruct (N.leb_spec value 0x2006) as [Hhi'|Hhi']; cbn [andb];
        try (split; [intros _; lia|reflexivity]).
      assert (value = 0x2000 \/ value = 0x2001 \/ value = 0x2002
              \/ value = 0x2003 \/ value = 0x2004 \/ value = 0x2005
              \/ value = 0x2006) as Hv by lia.
      split; [|lia].
      destruct Hv as [-> | [-> | [-> | [-> | [-> | [-> | ->]]]]]];
        intros H; vm_compute in H; discriminate H.
    + destruct (N.leb_spec 0x2000 value); [lia|].
      split; [intros _; lia|reflexivity].
    + destruct (N.leb_spec 0x2000 value); [lia|].
      split; [intros _; lia|reflexivity].
Qed.

(** X4: a wFormatTag code 0xTNNN whose type prefix T is one of the three
    format types and whose format code NNN is below the length of that
    type's table is printed, by both definitions of the renderer, as entry
    NNN of that table. *)
Theorem wformattag_in_range_codes :
  forall (prefix : N) (names : table) (code indent : N),
    In (prefix, names)
       [ (UAC_FORMAT_TYPE_I, audio_data_format_type_i);
         (UAC_FORMAT_TYPE_II, audio_data_format_type_ii);
         (UAC_FORMAT_TYPE_III, audio_data_format_type_iii) ] ->
    code < ARRAY_LEN names ->
    exists name : string,
      nth_error names (N.to_nat code) = Some (Some name)
      /\ LiteralRange.desc_snowflake_dump_uac1_as_interface_wformattag
           (N.shiftl prefix 12 + code) indent
         = Done (" " ++ name ++ nl)
      /\ GenericRange.desc_snowflake_dump_uac1_as_interface_wformattag
           (N.shiftl prefix 12 + code) indent
         = Done (" " ++ name ++ nl).
Proof.
  intros prefix names code indent Hin Hcode.
  destruct Hin as [Heq | [Heq | [Heq | []]]]; injection Heq as <- <-;
    cbv [ARRAY_LEN length audio_data_format_type_i
         audio_data_format_type_ii audio_data_format_type_iii
         N.of_nat] in Hcode; cbn in Hcode.
  - assert (code = 0 \/ code = 1 \/ code = 2 \/ code = 3 \/ code = 4
            \/ code = 5) as Hv by lia.
    destruct Hv as [-> | [-> | [-> | [-> | [-> | ->]]]]];
      eexists; repeat split.
  - assert (code = 0 \/ code = 1 \/ code = 2) as Hv by lia.
    destruct Hv as [-> | [-> | ->]]; eexists; repeat split.
  - assert (code = 0 \/ code = 1 \/ code = 2 \/ code = 3 \/ code = 4
            \/ code = 5 \/ code = 6) as Hv by lia.
    destruct Hv as [-> | [-> | [-> | [-> | [-> | [-> | ->]]]]]];
      eexists; repeat split.
Qed.

Lemma wformattag_in_range_codes_witness :
  exists name : string,
    nth_error audio_data_format_type_ii (N.to_nat 2) = Some (Some name)
    /\ LiteralRange.desc_snowflake_dump_uac1_as_interface_wformattag
         (N.shiftl UAC_FORMAT_TYPE_II 12 + 2) 0
       = Done (" " ++ name ++ nl)
    /\ GenericRange.desc_snowflake_dump_uac1_as_interface_wformattag
         (N.shiftl UAC_FORMAT_TYPE_II 12 + 2) 0
       = Done (" " ++ name ++ nl).
Proof.
  apply (wformattag_in_range_codes
           UAC_FORMAT_TYPE_II audio_data_format_type_ii 2 0).
  - right. left. reflexivity.
  - reflexivity.
Defined.

(** ** Invariants of the definitions *)

(** Walk a [Forall] over a list given by constants down to its entries. *)
Ltac forall_entries :=
  repeat match goal with
         | |- Forall _ [] => apply Forall_nil
         | |- Forall _ (_ :: _) => apply Forall_cons
         | |- Forall _ ?l => let l' := eval hnf in l in change l with l'
         end.

(** X5: with the literal-bounds definition of the wFormatTag renderer in
    the UAC1 AS interface definition, no custom renderer reachable through
    the exported arrays ever subscripts a table outside its bounds or
    prints a NULL entry: each function installed in a .snowflake member of
    a definition prints a text for every value and every indent. *)
Theorem registry_snowflakes_stay_in_bounds :
  Forall
    (fun d : desc_def =>
       Forall
         (fun f : desc =>
            match param f with
            | snowflake render =>
                forall value indent : N,
                exists text : string, render value indent = Done text
            | _ => True
            end)
         d)
    all_definitions.
Proof.
  forall_entries; cbn [param D DP DA DPA]; try exact I; intros value indent.
  - destruct (uac2_clk_src_bmattr_form value indent) as (kind & _ & ->).
    eexists; reflexivity.
  - apply literal_wformattag_in_bounds.
  - rewrite uac2_as_interface_bmformats_form. eexists; reflexivity.
Qed.

Lemma entries_have_one_width_all :
  Forall
    (fun d : desc_def =>
       Forall
         (fun f : desc =>
            match size_field f with
            | None => size f = 1 \/ size f = 2 \/ size f = 4
            | Some _ => size f = 0
            end)
         d)
    all_definitions.
Proof.
  forall_entries; cbn; auto.
Qed.

(** X6: the type-specific member of every entry is the one its type reads:
    a bmcontrol table for the two control-bitmap types, bitmap_strings for
    DESC_BITMAP_STRINGS, number_strings for DESC_NUMBER_STRINGS,
    number_postfix for DESC_NUMBER_POSTFIX, a snowflake function for
    DESC_SNOWFLAKE, and none for the other types. *)
Theorem entries_member_fits_type :
  Forall
    (fun d : desc_def =>
       Forall
         (fun f : desc =>
            match type f with
            | DESC_BMCONTROL_1 | DESC_BMCONTROL_2 =>
                exists names, param f = bmcontrol names
            | DESC_BITMAP_STRINGS =>
                exists strings count, param f = bitmap_strings strings count
            | DESC_NUMBER_STRINGS =>
                exists names, param f = number_strings names
            | DESC_NUMBER_POSTFIX =>
                exists text, param f = number_postfix text
            | DESC_SNOWFLAKE => exists render, param f = snowflake render
            | DESC_CONSTANT | DESC_NUMBER | DESC_BITMAP | DESC_BCD
            | DESC_STR_DESC_INDEX | DESC_TERMINAL_STR =>
                param f = no_param
            end)
         d)
    all_definitions.
Proof.
  forall_entries; cbn; try reflexivity; repeat eexists.
Qed.

(** X7: for every DESC_BITMAP_STRINGS entry the bit count given with the
    strings is at most the length of the strings table and at most the
    number of bits of the field, so looking up the name of any bit below
    the count stays inside the table and inside the value.  The count is
    the whole table, except with uac2_channel_names, where it is 26 for a
    table of 27 names: the name at index 26 is beyond the count. *)
Theorem bitmap_strings_count_in_bounds :
  Forall
    (fun d : desc_def =>
       Forall
         (fun f : desc =>
            match param f with
            | bitmap_strings strings count =>
                count <= ARRAY_LEN strings
                /\ count <= 8 * size f
                /\ (count = ARRAY_LEN strings
                    \/ (strings = uac2_channel_names
                        /\ count = 26
                        /\ ARRAY_LEN strings = 27
                        /\ nth_error strings 26
                           = Some (Some "Back Right of Center (BRC)")))
            | _ => True
            end)
         d)
    all_definitions.
Proof.
  forall_entries; cbn [param size D DP DA DPA]; try exact I;
    (split; [vm_compute; discriminate|]);
    (split; [vm_compute; discriminate|]);
    first [left; reflexivity | right; repeat split].
Qed.

(** X8: every table given to a control-bitmap or DESC_NUMBER_STRINGS entry
    is a run of names closed by a single NULL: it ends in NULL and holds no
    NULL before its end. *)
Theorem name_tables_null_terminated :
  Forall
    (fun d : desc_def =>
       Forall
         (fun f : desc =>
            match param f with
            | bmcontrol t | number_strings t =>
                exists names : list string,
                  t = (map Some names ++ [None])%list
            | _ => True
            end)
         d)
    all_definitions.
Proof.
  forall_entries; cbn [param D DP DA DPA]; try exact I;
    match goal with
    | |- exists names, ?t = _ =>
        exists (flat_map opt_list (removelast t)); reflexivity
    end.
Qed.

(** X9: every DESC_BMCONTROL_2 entry has a literal size wide enough for
    two bits per named control: twice the number of names before the NULL
    is at most the number of bits of the field. *)
Theorem bmcontrol_2_names_fit_field :
  Forall
    (fun d : desc_def =>
       Forall
         (fun f : desc =>
            match type f, param f with
            | DESC_BMCONTROL_2, bmcontrol t =>
                size_field f = None
                /\ 2 * (ARRAY_LEN t - 1) <= 8 * size f
            | _, _ => True
            end)
         d)
    all_definitions.
Proof.
  forall_entries; cbn [type param size size_field D DP DA DPA];
    try exact I; (split; [reflexivity|vm_compute; discriminate]).
Qed.

(** X10: every field named through size_field, length_field1 or
    length_field2 is, in the same definition, a single one-byte DESC_NUMBER
    value of a literal size: widths and lengths taken from another field
    are always read from one byte. *)
Theorem references_name_one_byte_numbers :
  Forall
    (fun d : desc_def =>
       Forall
         (fun f : desc =>
            Forall
              (fun r : string =>
                 exists g : desc,
                   In g d
                   /\ field g = r
                   /\ type g = DESC_NUMBER
                   /\ size g = 1
                   /\ size_field g = None
                   /\ array (array_ g) = false)
              (references f))
         d)
    all_definitions.
Proof.
  forall_entries;
    match goal with
    | |- exists g, In g ?d /\ field g = ?r /\ _ =>
        exists (D r 1 DESC_NUMBER);
        (split;
         [ simpl; repeat (first [left; reflexivity | right])
         | repeat split ])
    end.
Qed.

(** X11: the field names of a definition are pairwise distinct, so a name
    picks at most one entry. *)
Theorem field_names_distinct :
  Forall (fun d : desc_def => NoDup (map field d)) all_definitions.
Proof.
  apply Forall_forall. intros d Hin.
  now destruct (In_all_definitions_checked d Hin).
Qed.

Lemma open_array_then_fixed_sound (d : desc_def) :
  open_array_then_fixed d = true ->
  forall pre f post,
    d = (pre ++ f :: post)%list ->
    is_open_array f = true ->
    Forall (fun g => is_fixed_scalar g = true) post.
Proof.
  induction d as [|g d IH]; intros Hok pre f post Hd Hopen.
  - destruct pre; discriminate.
  - cbn [open_array_then_fixed] in Hok. apply andb_true_iff in Hok.
    destruct Hok as [Hg Hrest].
    destruct pre as [|p pre]; simpl in Hd; injection Hd as -> ->.
    + rewrite Hopen in Hg. apply Forall_forall.
      now apply forallb_forall.
    + eapply IH; [exact Hrest|reflexivity|exact Hopen].
Qed.

(** X12: in every definition, each entry listed after an array that names
    no length field is a single value of a literal size; hence a
    definition has at most one such array, and the bytes that follow it
    have a fixed total size. *)
Theorem open_array_followed_by_fixed_fields :
  forall d : desc_def,
    In d all_definitions ->
    forall (pre : list desc) (f : desc) (post : list desc),
      d = (pre ++ f :: post)%list ->
      array (array_ f) = true ->
      length_field1 (array_ f) = None ->
      Forall
        (fun g : desc =>
           array (array_ g) = false /\ size_field g = None
           /\ (size g = 1 \/ size g = 2 \/ size g = 4))
        post.
Proof.
  intros d Hin pre f post Hd Harr Hlen.
  assert (forallb open_array_then_fixed all_definitions = true) as Hall
    by (vm_compute; reflexivity).
  rewrite forallb_forall in Hall.
  assert (is_open_array f = true) as Hopen.
  { unfold is_open_array. now rewrite Harr, Hlen. }
  pose proof (open_array_then_fixed_sound d (Hall d Hin) pre f post Hd Hopen)
    as Hpost.
  pose proof entries_have_one_width_all as Hwidth.
  rewrite Forall_forall in Hwidth. specialize (Hwidth d Hin).
  rewrite Forall_forall in Hwidth, Hpost.
  apply Forall_forall. intros g Hg.
  specialize (Hpost g Hg). unfold is_fixed_scalar in Hpost.
  apply andb_true_iff in Hpost. destruct Hpost as [Ha Hs].
  apply negb_true_iff in Ha.
  assert (In g d) as Hgd.
  { subst d. apply in_or_app. right. now right. }
  specialize (Hwidth g Hgd).
  destruct (size_field g); [discriminate Hs|].
  repeat split; assumption.
Qed.

Lemma open_array_followed_by_fixed_fields_witness :
  Forall
    (fun g : desc =>
       array (array_ g) = false /\ size_field g = None
       /\ (size g = 1 \/ size g = 2 \/ size g = 4))
    [ D "iEffects" 1 DESC_STR_DESC_INDEX ].
Proof.
  apply (open_array_followed_by_fixed_fields desc_audio_2_ac_effect_unit)
    with (pre := [ D "bUnitID" 1 DESC_NUMBER; D "wEffectType" 2 DESC_CONSTANT;
                   D "bSourceID" 1 DESC_CONSTANT ])
         (f := DA "bmaControls" 4 DESC_BITMAP array_open).
  - unfold all_definitions. simpl. do 2 right. left. reflexivity.
  - reflexivity.
  - reflexivity.
  - reflexivity.
Defined.
